(** * Activity tracker: element classification, locators, throttling, export

    A shallow embedding of [activity-tracker.js].  The DOM is a store of
    nodes addressed by references; the functions of the script become Rocq
    functions over that store, with an explicit result type for the two
    ways a JavaScript call can fail to produce a value here (a [TypeError],
    or a walk that has not finished within the fuel it was given). *)

From Stdlib Require Import String Ascii List ZArith Lia Bool Arith.
From Stdlib Require Import DecimalString DecimalPos DecimalZ.
Import ListNotations.

Local Open Scope list_scope.
Local Open Scope string_scope.

(* ================================================================= *)
(** ** Strings as the script uses them *)

Module Str.

(** [String.prototype.toLowerCase] on the ASCII letters; every other
    code unit is left as it is. *)
Definition lower_ascii (c : ascii) : ascii :=
  let n := nat_of_ascii c in
  if (65 <=? n)%nat && (n <=? 90)%nat then ascii_of_nat (n + 32) else c.

Fixpoint toLowerCase (s : string) : string :=
  match s with
  | EmptyString => EmptyString
  | String c rest => String (lower_ascii c) (toLowerCase rest)
  end.

(** [Array.prototype.join]. *)
Fixpoint join (sep : string) (parts : list string) : string :=
  match parts with
  | [] => EmptyString
  | [p] => p
  | p :: rest => p ++ sep ++ join sep rest
  end.

(** [s.split(c)] for a one-character separator: the pieces between the
    separators, empty pieces included, always at least one piece. *)
Fixpoint split_on (c : ascii) (s : string) : list string :=
  match s with
  | EmptyString => [EmptyString]
  | String a rest =>
      if Ascii.eqb a c then EmptyString :: split_on c rest
      else match split_on c rest with
           | [] => [String a EmptyString]
           | piece :: more => String a piece :: more
           end
  end.

Definition nonempty (s : string) : bool :=
  match s with EmptyString => false | _ => true end.

(** [s.substring(0, n)]. *)
Definition prefix (n : nat) (s : string) : string := substring 0 n s.

(** Template interpolation of a non-negative integer. *)
Definition of_nat (n : nat) : string := NilEmpty.string_of_uint (Nat.to_uint n).

Definition dquote : string := String (ascii_of_nat 34) EmptyString.

End Str.

(* ================================================================= *)
(** ** Outcomes of a call *)

Inductive Result (A : Type) : Type :=
| Ok (a : A)
| TypeError
| OutOfFuel.
Arguments Ok {A} a.
Arguments TypeError {A}.
Arguments OutOfFuel {A}.

Definition bind {A B : Type} (r : Result A) (k : A -> Result B) : Result B :=
  match r with
  | Ok a => k a
  | TypeError => TypeError
  | OutOfFuel => OutOfFuel
  end.

Notation "x <- r ;; k" := (bind r (fun x => k))
  (at level 61, r at next level, right associativity).

Definition returns {A : Type} (r : Result A) : Prop := exists a, r = Ok a.

(** A property read from a DOM object: a string, or [undefined].  These
    are the values the properties of HTML elements have; the [className]
    of an SVG element (an object) and a numeric [value] are not among
    them. *)
Definition prop := option string.

(** JavaScript truthiness of such a property: [undefined] and the empty
    string are falsy. *)
Definition truthy (p : prop) : bool :=
  match p with
  | Some s => Str.nonempty s
  | None => false
  end.

(** [x.toLowerCase()]: a [TypeError] when [x] is [undefined]. *)
Definition toLowerCase_of (p : prop) : Result string :=
  match p with
  | Some s => Ok (Str.toLowerCase s)
  | None => TypeError
  end.

(** Template interpolation and string concatenation of such a property:
    [undefined] is spelled out. *)
Definition interp (p : prop) : string :=
  match p with
  | Some s => s
  | None => "undefined"
  end.

(** [x.split(c)]: a [TypeError] when [x] is [undefined]. *)
Definition split_of (c : ascii) (p : prop) : Result (list string) :=
  match p with
  | Some s => Ok (Str.split_on c s)
  | None => TypeError
  end.

(** [a === b] on two such properties. *)
Definition prop_eqb (a b : prop) : bool :=
  match a, b with
  | Some x, Some y => String.eqb x y
  | None, None => true
  | _, _ => false
  end.

(* ================================================================= *)
(** ** The document *)

Definition ref := nat.

Record Node : Type := mkNode {
  nodeType   : Z;
  tagName    : prop;
  id         : prop;
  className  : prop;
  type_      : prop;
  name       : prop;
  value      : prop;
  href       : prop;
  innerText  : prop;
  action     : prop;
  method     : prop;
  parentNode : option ref;
  childNodes : list ref
}.

Record Document : Type := mkDocument {
  node : ref -> Node;
  body : option ref
}.

Definition ELEMENT_NODE : Z := 1.

Definition isElement (n : Node) : bool := Z.eqb (nodeType n) ELEMENT_NODE.

(** [element.parentElement]: the parent node when it is an element. *)
Definition parentElement (d : Document) (e : ref) : option ref :=
  match parentNode (node d e) with
  | Some p => if isElement (node d p) then Some p else None
  | None => None
  end.

(** The child nodes that come before the first occurrence of [e]. *)
Fixpoint preceding (e : ref) (siblings : list ref) : list ref :=
  match siblings with
  | [] => []
  | s :: rest => if Nat.eqb s e then [] else s :: preceding e rest
  end.

(** The chain followed by repeated [previousElementSibling]: the element
    nodes before [e] under its parent, nearest first. *)
Definition previousElementSiblings (d : Document) (e : ref) : list ref :=
  match parentNode (node d e) with
  | Some p =>
      rev (filter (fun s => isElement (node d s))
                  (preceding e (childNodes (node d p))))
  | None => []
  end.

(* ================================================================= *)
(** ** Event object type detection *)

Definition includes (l : list string) (s : string) : bool :=
  existsb (String.eqb s) l.

Definition getEventObjectType (element : Node) : Result string :=
  tagName <- toLowerCase_of (tagName element) ;;
  if includes ["input"; "textarea"; "select"] tagName then
    if String.eqb tagName "select" then Ok "DROP_DOWN"
    else
      match option_map Str.toLowerCase (type_ element) with
      | Some type =>
          if includes ["text"; "password"; "email"; "search"; "tel"; "url"] type
          then Ok "TEXT_FIELD"
          else if String.eqb type "checkbox" then Ok "CHECKBOX"
          else if String.eqb type "radio" then Ok "RADIO_BUTTON"
          else if String.eqb type "file" then Ok "FILE_UPLOAD"
          else if includes ["submit"; "button"] type then Ok "BUTTON"
          else if String.eqb type "range" then Ok "SLIDER"
          else if includes ["date"; "time"; "datetime-local"] type
          then Ok "DATE_PICKER"
          else if String.eqb type "color" then Ok "COLOR_PICKER"
          else Ok "INPUT_FIELD"
      | None => Ok "INPUT_FIELD"
      end
  else if String.eqb tagName "a" then Ok "LINK"
  else if String.eqb tagName "button" then Ok "BUTTON"
  else if String.eqb tagName "img" then Ok "IMAGE"
  else if String.eqb tagName "video" then Ok "VIDEO"
  else if String.eqb tagName "audio" then Ok "AUDIO"
  else if String.eqb tagName "iframe" then Ok "IFRAME"
  else if String.eqb tagName "canvas" then Ok "CANVAS"
  else if String.eqb tagName "svg" then Ok "SVG"
  else if String.eqb tagName "table" then Ok "TABLE"
  else if includes ["ul"; "ol"] tagName then Ok "LIST"
  else if String.eqb tagName "li" then Ok "LIST_ITEM"
  else if String.eqb tagName "div" then Ok "CONTAINER"
  else if String.eqb tagName "span" then Ok "TEXT_SPAN"
  else if String.eqb tagName "p" then Ok "PARAGRAPH"
  else if includes ["h1"; "h2"; "h3"; "h4"; "h5"; "h6"] tagName then Ok "HEADING"
  else if String.eqb tagName "form" then Ok "FORM"
  else if String.eqb tagName "label" then Ok "LABEL"
  else if String.eqb tagName "nav" then Ok "NAVIGATION"
  else if String.eqb tagName "header" then Ok "HEADER"
  else if String.eqb tagName "footer" then Ok "FOOTER"
  else if String.eqb tagName "section" then Ok "SECTION"
  else if String.eqb tagName "article" then Ok "ARTICLE"
  else if String.eqb tagName "main" then Ok "MAIN_CONTENT"
  else Ok "ELEMENT".

(* ================================================================= *)
(** ** Locators *)

(** The inner loop of [getCssSelector]: [chain] is what repeated
    [previousElementSibling] visits. *)
Fixpoint countSameTag (d : Document) (tag : prop) (chain : list ref) (nth : nat) : nat :=
  match chain with
  | [] => nth
  | sibling :: rest =>
      countSameTag d tag rest
        (if prop_eqb (tagName (node d sibling)) tag then S nth else nth)
  end.

(** The [while (element.parentElement)] loop; [path] is the array built so
    far, and one unit of fuel is spent on each move to the parent. *)
Fixpoint cssPathLoop (fuel : nat) (d : Document) (element : ref)
    (path : list string) : Result (list string) :=
  match parentElement d element with
  | None => Ok path
  | Some parent =>
      selector <- toLowerCase_of (tagName (node d element)) ;;
      if truthy (id (node d element)) then
        Ok ((selector ++ "#" ++ interp (id (node d element))) :: path)
      else
        let nth := countSameTag d (tagName (node d element))
                     (previousElementSiblings d element) 1 in
        let selector :=
          if (1 <? nth)%nat
          then selector ++ ":nth-of-type(" ++ Str.of_nat nth ++ ")"
          else selector in
        match fuel with
        | O => OutOfFuel
        | S fuel' => cssPathLoop fuel' d parent (selector :: path)
        end
  end.

Definition getCssSelector (fuel : nat) (d : Document) (element : ref) : Result string :=
  let n := node d element in
  if truthy (id n) then Ok ("#" ++ interp (id n))
  else if truthy (className n) then
    pieces <- split_of " "%char (className n) ;;
    let classes := Str.join "." (filter Str.nonempty pieces) in
    tag <- toLowerCase_of (tagName n) ;;
    Ok (tag ++ "." ++ classes)
  else
    path <- cssPathLoop fuel d element [] ;;
    Ok (Str.join " > " path).

(** The [for] loop of [getXPath] over the sibling nodes: the value of [ix]
    when the loop reaches [element], or [None] when it runs off the end. *)
Fixpoint xpathScan (d : Document) (element : ref) (siblings : list ref)
    (ix : nat) : option nat :=
  match siblings with
  | [] => None
  | sibling :: rest =>
      if Nat.eqb sibling element then Some ix
      else if isElement (node d sibling)
              && prop_eqb (tagName (node d sibling)) (tagName (node d element))
           then xpathScan d element rest (S ix)
           else xpathScan d element rest ix
  end.

(** [element === document.body]. *)
Definition isBody (d : Document) (element : ref) : bool :=
  match body d with
  | Some b => Nat.eqb element b
  | None => false
  end.

(** [getXPath]: a string, or [undefined] ([None]) when the function falls
    off its end.  One unit of fuel is spent on each recursive call.  The
    recursive call is on [element.parentNode]; on [null] it would read
    [null.id], a [TypeError] (the sibling list is empty then, so the scan
    never gets there). *)
Fixpoint getXPath (fuel : nat) (d : Document) (element : ref) : Result prop :=
  let n := node d element in
  if truthy (id n) then
    Ok (Some ("//*[@id=" ++ Str.dquote ++ interp (id n) ++ Str.dquote ++ "]"))
  else if isBody d element then Ok (Some "/html/body")
  else
    let siblings :=
      match parentNode n with
      | Some p => childNodes (node d p)
      | None => []
      end in
    match xpathScan d element siblings 0 with
    | None => Ok None
    | Some ix =>
        match parentNode n with
        | None => TypeError
        | Some p =>
            match fuel with
            | O => OutOfFuel
            | S fuel' =>
                up <- getXPath fuel' d p ;;
                tag <- toLowerCase_of (tagName n) ;;
                Ok (Some (interp up ++ "/" ++ tag ++ "[" ++ Str.of_nat (ix + 1) ++ "]"))
            end
        end
    end.

(* ================================================================= *)
(** ** JavaScript values held in event records *)

(** Numbers are kept as integers; [NotFinite] stands for [NaN] and the two
    infinities, which a division by zero produces. *)
Inductive Number : Type :=
| Int (z : Z)
| NotFinite.

(** Plain data: an object is its list of own properties in order. *)
#[local] Unset Elimination Schemes.
Inductive JSValue : Type :=
| JUndefined
| JNull
| JBool (b : bool)
| JNumber (n : Number)
| JString (s : string)
| JArray (items : list JSValue)
| JObject (fields : list (string * JSValue)).
#[local] Set Elimination Schemes.

(** Induction on values, through the lists of items and of properties. *)
Section JSValueInduction.
Variable P : JSValue -> Prop.
Hypothesis P_undefined : P JUndefined.
Hypothesis P_null : P JNull.
Hypothesis P_bool : forall b, P (JBool b).
Hypothesis P_number : forall n, P (JNumber n).
Hypothesis P_string : forall s, P (JString s).
Hypothesis P_array : forall items, Forall P items -> P (JArray items).
Hypothesis P_object :
  forall fields, Forall (fun kv => P (snd kv)) fields -> P (JObject fields).

Fixpoint JSValue_nested_ind (v : JSValue) : P v :=
  match v with
  | JUndefined => P_undefined
  | JNull => P_null
  | JBool b => P_bool b
  | JNumber n => P_number n
  | JString s => P_string s
  | JArray items =>
      P_array items
        ((fix all (l : list JSValue) : Forall P l :=
            match l with
            | [] => Forall_nil P
            | x :: rest => Forall_cons x (JSValue_nested_ind x) (all rest)
            end) items)
  | JObject fields =>
      P_object fields
        ((fix all (l : list (string * JSValue))
            : Forall (fun kv => P (snd kv)) l :=
            match l with
            | [] => Forall_nil _
            | kv :: rest =>
                Forall_cons kv (JSValue_nested_ind (snd kv)) (all rest)
            end) fields)
  end.
End JSValueInduction.

Definition of_prop (p : prop) : JSValue :=
  match p with
  | Some s => JString s
  | None => JUndefined
  end.

(** [null] or a string. *)
Definition nullable (p : option string) : JSValue :=
  match p with
  | Some s => JString s
  | None => JNull
  end.

(** [p || dflt] for a string default. *)
Definition orElse (p : prop) (dflt : string) : string :=
  if truthy p then interp p else dflt.

(** A property that is absent, or present and empty. *)
Definition blank (p : prop) : Prop := p = None \/ p = Some EmptyString.

(** [p?.substring(0, n)]. *)
Definition substring_opt (n : nat) (p : prop) : prop := option_map (Str.prefix n) p.

(** Property read on a value: the last binding of the key in an object,
    [undefined] otherwise. *)
Fixpoint lookup (k : string) (fields : list (string * JSValue)) : JSValue :=
  match fields with
  | [] => JUndefined
  | (k', v) :: rest =>
      match lookup k rest with
      | JUndefined => if String.eqb k' k then v else JUndefined
      | found => found
      end
  end.

Definition getProp (k : string) (v : JSValue) : JSValue :=
  match v with
  | JObject fields => lookup k fields
  | _ => JUndefined
  end.

(* ================================================================= *)
(** ** The tracker and its surroundings *)

Record Session : Type := mkSession {
  sessionId        : option string;
  startTime        : option string;
  pageUrl          : string;
  userAgent        : string;
  screenResolution : string;
  viewport         : string
}.

Record Config : Type := mkConfig {
  logToConsole       : bool;
  logDetailedInfo    : bool;
  trackMouseMovement : bool;
  trackScrolling     : bool;
  trackFormInputs    : bool;
  groupSimilarEvents : bool
}.

Record Tracker : Type := mkTracker {
  events  : list JSValue;
  session : Session;
  config  : Config
}.

(** [ActivityTracker.events.push(record)]. *)
Definition push (record : JSValue) (t : Tracker) : Tracker :=
  mkTracker (events t ++ [record])%list (session t) (config t).

Definition sessionValue (s : Session) : JSValue :=
  JObject [ ("sessionId", nullable (sessionId s));
            ("startTime", nullable (startTime s));
            ("pageUrl", JString (pageUrl s));
            ("userAgent", JString (userAgent s));
            ("screenResolution", JString (screenResolution s));
            ("viewport", JString (viewport s)) ].

Record Window : Type := mkWindow {
  scrollX      : Z;
  scrollY      : Z;
  innerWidth   : Z;
  innerHeight  : Z;
  scrollHeight : Z
}.

(** What a handler reads from the page when it runs: the document, the
    window metrics, the computed styles, and the two readings of the clock
    ([new Date().toISOString()] and [Date.now()]). *)
Record Env : Type := mkEnv {
  document         : Document;
  window           : Window;
  getComputedStyle : ref -> string -> prop;
  isoTime          : string;
  now              : Z
}.

Record Event : Type := mkEvent {
  target   : ref;
  clientX  : Z;
  clientY  : Z;
  pageX    : Z;
  pageY    : Z;
  key      : string;
  code     : string;
  ctrlKey  : bool;
  shiftKey : bool;
  altKey   : bool
}.

Definition num (z : Z) : JSValue := JNumber (Int z).

Definition getComputedStyleInfo (env : Env) (element : ref) : JSValue :=
  let styles := getComputedStyle env element in
  JObject [ ("display", of_prop (styles "display"));
            ("position", of_prop (styles "position"));
            ("backgroundColor", of_prop (styles "backgroundColor"));
            ("color", of_prop (styles "color"));
            ("fontSize", of_prop (styles "fontSize"));
            ("fontFamily", of_prop (styles "fontFamily"));
            ("width", of_prop (styles "width"));
            ("height", of_prop (styles "height")) ].

(** The [element: {...}] literal of a click record. *)
Definition clickElementInfo (tag : string) (n : Node) : JSValue :=
  JObject [ ("tagName", JString tag);
            ("id", JString (orElse (id n) "N/A"));
            ("className", JString (orElse (className n) "N/A"));
            ("text", JString (orElse (substring_opt 50 (innerText n)) "N/A"));
            ("href", JString (orElse (href n) "N/A"));
            ("type", JString (orElse (type_ n) "N/A")) ].

Definition handleClickEvent (fuel : nat) (env : Env) (event : Event)
    (t : Tracker) : Result Tracker :=
  let element := target event in
  let n := node (document env) element in
  eventObject <- getEventObjectType n ;;
  tag <- toLowerCase_of (tagName n) ;;
  cssSelector <- getCssSelector fuel (document env) element ;;
  xpath <- getXPath fuel (document env) element ;;
  let clickEvent :=
    JObject [ ("timestamp", JString (isoTime env));
              ("type_of_event", JString "CLICK");
              ("event_object", JString eventObject);
              ("element", clickElementInfo tag n);
              ("position", JObject [ ("x", num (clientX event));
                                     ("y", num (clientY event));
                                     ("pageX", num (pageX event));
                                     ("pageY", num (pageY event)) ]);
              ("cssSelector", JString cssSelector);
              ("xpath", of_prop xpath);
              ("computedStyles",
                if logDetailedInfo (config t)
                then getComputedStyleInfo env element else JNull) ] in
  Ok (push clickEvent t).

Definition handleHoverEvent (fuel : nat) (env : Env) (event : Event)
    (t : Tracker) : Result Tracker :=
  let element := target event in
  let n := node (document env) element in
  tag <- toLowerCase_of (tagName n) ;;
  if negb (includes ["a"; "button"; "input"; "select"; "textarea"] tag) then Ok t
  else
    eventObject <- getEventObjectType n ;;
    cssSelector <- getCssSelector fuel (document env) element ;;
    let hoverEvent :=
      JObject [ ("timestamp", JString (isoTime env));
                ("type_of_event", JString "HOVER");
                ("event_object", JString eventObject);
                ("element", JObject [ ("tagName", JString tag);
                                      ("id", JString (orElse (id n) "N/A"));
                                      ("className", JString (orElse (className n) "N/A")) ]);
                ("cssSelector", JString cssSelector) ] in
    Ok (push hoverEvent t).

(** [Math.round((y / den) * 100)], the quotient taken exactly. *)
Definition percentage (y den : Z) : Number :=
  if Z.eqb den 0 then NotFinite else Int ((200 * y + den) / (2 * den)).

(** [handleScrollEvent].  The page is taken to have a body, whose
    [scrollHeight] the window record holds; on a document without a body
    the script cannot read [document.body.scrollHeight]. *)
Definition handleScrollEvent (env : Env) (t : Tracker) : Result Tracker :=
  let w := window env in
  let scrollEvent :=
    JObject [ ("timestamp", JString (isoTime env));
              ("type_of_event", JString "SCROLL");
              ("event_object", JString "PAGE");
              ("position",
                JObject [ ("scrollY", num (scrollY w));
                          ("scrollX", num (scrollX w));
                          ("scrollPercentage",
                            JNumber (percentage (scrollY w)
                                       (scrollHeight w - innerHeight w))) ]);
              ("documentHeight", num (scrollHeight w));
              ("viewportHeight", num (innerHeight w)) ] in
  Ok (push scrollEvent t).

Definition handleFocusEvent (fuel : nat) (env : Env) (event : Event)
    (t : Tracker) : Result Tracker :=
  let element := target event in
  let n := node (document env) element in
  tag <- toLowerCase_of (tagName n) ;;
  if negb (includes ["input"; "textarea"; "select"] tag) then Ok t
  else
    eventObject <- getEventObjectType n ;;
    cssSelector <- getCssSelector fuel (document env) element ;;
    let focusEvent :=
      JObject [ ("timestamp", JString (isoTime env));
                ("type_of_event", JString "FOCUS");
                ("event_object", JString eventObject);
                ("element", JObject [ ("tagName", JString tag);
                                      ("id", JString (orElse (id n) "N/A"));
                                      ("name", JString (orElse (name n) "N/A"));
                                      ("type", JString (orElse (type_ n) "N/A")) ]);
                ("cssSelector", JString cssSelector) ] in
    Ok (push focusEvent t).

Definition handleBlurEvent (env : Env) (event : Event) (t : Tracker) : Result Tracker :=
  let n := node (document env) (target event) in
  tag <- toLowerCase_of (tagName n) ;;
  if negb (includes ["input"; "textarea"; "select"] tag) then Ok t
  else
    eventObject <- getEventObjectType n ;;
    let blurEvent :=
      JObject [ ("timestamp", JString (isoTime env));
                ("type_of_event", JString "BLUR");
                ("event_object", JString eventObject);
                ("element", JObject [ ("tagName", JString tag);
                                      ("id", JString (orElse (id n) "N/A"));
                                      ("name", JString (orElse (name n) "N/A")) ]) ] in
    Ok (push blurEvent t).

(** The [element: {...}] literal of a change record. *)
Definition changeElementInfo (tag : string) (n : Node) : JSValue :=
  JObject [ ("tagName", JString tag);
            ("id", JString (orElse (id n) "N/A"));
            ("name", JString (orElse (name n) "N/A"));
            ("type", JString (orElse (type_ n) "N/A"));
            ("value", JString (orElse (substring_opt 50 (value n)) "N/A")) ].

Definition handleChangeEvent (env : Env) (event : Event) (t : Tracker) : Result Tracker :=
  let n := node (document env) (target event) in
  eventObject <- getEventObjectType n ;;
  tag <- toLowerCase_of (tagName n) ;;
  let changeEvent :=
    JObject [ ("timestamp", JString (isoTime env));
              ("type_of_event", JString "CHANGE");
              ("event_object", JString eventObject);
              ("element", changeElementInfo tag n) ] in
  Ok (push changeEvent t).

Definition handleSubmitEvent (env : Env) (event : Event) (t : Tracker) : Result Tracker :=
  let form := node (document env) (target event) in
  let submitEvent :=
    JObject [ ("timestamp", JString (isoTime env));
              ("type_of_event", JString "FORM_SUBMIT");
              ("event_object", JString "FORM");
              ("form", JObject [ ("id", JString (orElse (id form) "N/A"));
                                 ("name", JString (orElse (name form) "N/A"));
                                 ("action", JString (orElse (action form) "N/A"));
                                 ("method", JString (orElse (method form) "N/A")) ]) ] in
  Ok (push submitEvent t).

Definition handleKeyboardEvent (env : Env) (event : Event) (t : Tracker) : Result Tracker :=
  if negb (includes ["Enter"; "Escape"; "Tab"; "Backspace"; "Delete"] (key event))
  then Ok t
  else
    let keyEvent :=
      JObject [ ("timestamp", JString (isoTime env));
                ("type_of_event", JString "KEYBOARD");
                ("event_object", JString "KEYBOARD");
                ("key", JString (key event));
                ("code", JString (code event));
                ("ctrlKey", JBool (ctrlKey event));
                ("shiftKey", JBool (shiftKey event));
                ("altKey", JBool (altKey event)) ] in
    Ok (push keyEvent t).

Definition handleMouseMoveEvent (env : Env) (event : Event) (t : Tracker) : Result Tracker :=
  let moveEvent :=
    JObject [ ("timestamp", JString (isoTime env));
              ("type_of_event", JString "MOUSE_MOVE");
              ("event_object", JString "MOUSE");
              ("position", JObject [ ("x", num (clientX event));
                                     ("y", num (clientY event)) ]) ] in
  Ok (push moveEvent t).

Definition handleResizeEvent (env : Env) (t : Tracker) : Result Tracker :=
  let w := window env in
  let resizeEvent :=
    JObject [ ("timestamp", JString (isoTime env));
              ("type_of_event", JString "RESIZE");
              ("event_object", JString "WINDOW");
              ("viewport", JObject [ ("width", num (innerWidth w));
                                     ("height", num (innerHeight w)) ]) ] in
  Ok (push resizeEvent t).

(* ================================================================= *)
(** ** Listeners and the throttle *)

(** The handler functions, by name. *)
Inductive Handler : Type :=
| HandleClick | HandleHover | HandleScroll | HandleFocus | HandleBlur
| HandleChange | HandleSubmit | HandleKeyboard | HandleMouseMove | HandleResize.

Definition runHandler (h : Handler) (fuel : nat) (env : Env) (event : Event)
    (t : Tracker) : Result Tracker :=
  match h with
  | HandleClick => handleClickEvent fuel env event t
  | HandleHover => handleHoverEvent fuel env event t
  | HandleScroll => handleScrollEvent env t
  | HandleFocus => handleFocusEvent fuel env event t
  | HandleBlur => handleBlurEvent env event t
  | HandleChange => handleChangeEvent env event t
  | HandleSubmit => handleSubmitEvent env event t
  | HandleKeyboard => handleKeyboardEvent env event t
  | HandleMouseMove => handleMouseMoveEvent env event t
  | HandleResize => handleResizeEvent env t
  end.

(** The closure returned by [throttle(func, delay)]: the captured function
    and delay, and its private [lastCall]. *)
Record Throttled : Type := mkThrottled {
  func     : Handler;
  delay    : Z;
  lastCall : Z
}.

Inductive Listener : Type :=
| Plain (h : Handler)
| Wrapped (closure : nat).

(** The tracker, the closures created so far, and the listener table. *)
Record World : Type := mkWorld {
  tracker   : Tracker;
  closures  : list Throttled;
  listeners : list (string * Listener)
}.

(** [throttle(func, delay)]: a fresh closure whose [lastCall] is 0. *)
Definition throttle (func : Handler) (delay : Z) (w : World) : Listener * World :=
  (Wrapped (length (closures w)),
   mkWorld (tracker w) (closures w ++ [mkThrottled func delay 0])%list (listeners w)).

Definition addEventListener (type : string) (l : Listener) (w : World) : World :=
  mkWorld (tracker w) (closures w) (listeners w ++ [(type, l)])%list.

Fixpoint setLastCall (c : nat) (stamp : Z) (cs : list Throttled) : list Throttled :=
  match cs, c with
  | [], _ => []
  | cl :: rest, O => mkThrottled (func cl) (delay cl) stamp :: rest
  | cl :: rest, S c' => cl :: setLastCall c' stamp rest
  end.

(** One call of a listener.  For a throttled one this is the body of the
    function that [throttle] returns. *)
Definition callListener (l : Listener) (fuel : nat) (env : Env) (event : Event)
    (w : World) : Result World :=
  match l with
  | Plain h =>
      t <- runHandler h fuel env event (tracker w) ;;
      Ok (mkWorld t (closures w) (listeners w))
  | Wrapped c =>
      match nth_error (closures w) c with
      | None => TypeError
      | Some cl =>
          if (delay cl <=? now env - lastCall cl)%Z then
            let cs := setLastCall c (now env) (closures w) in
            t <- runHandler (func cl) fuel env event (tracker w) ;;
            Ok (mkWorld t cs (listeners w))
          else Ok w
      end
  end.

Definition registerEventListeners (w : World) : World :=
  let cfg := config (tracker w) in
  let w := addEventListener "click" (Plain HandleClick) w in
  let w := addEventListener "mouseover" (Plain HandleHover) w in
  let w :=
    if trackScrolling cfg then
      let (l, w) := throttle HandleScroll 500 w in addEventListener "scroll" l w
    else w in
  let w :=
    if trackFormInputs cfg then
      let w := addEventListener "focus" (Plain HandleFocus) w in
      let w := addEventListener "blur" (Plain HandleBlur) w in
      let w := addEventListener "change" (Plain HandleChange) w in
      addEventListener "submit" (Plain HandleSubmit) w
    else w in
  let w := addEventListener "keydown" (Plain HandleKeyboard) w in
  let w :=
    if trackMouseMovement cfg then
      let (l, w) := throttle HandleMouseMove 1000 w in addEventListener "mousemove" l w
    else w in
  let (l, w) := throttle HandleResize 500 w in
  addEventListener "resize" l w.

(** The handlers that [registerEventListeners] wraps in a throttle. *)
Definition throttledHandler (h : Handler) : Prop :=
  h = HandleScroll \/ h = HandleMouseMove \/ h = HandleResize.

(** The page delivers an event of the given type: its listeners run in
    the order they were registered. *)
Fixpoint callListeners (ls : list (string * Listener)) (type : string) (fuel : nat)
    (env : Env) (event : Event) (w : World) : Result World :=
  match ls with
  | [] => Ok w
  | (type', l) :: rest =>
      if String.eqb type' type then
        w' <- callListener l fuel env event w ;;
        callListeners rest type fuel env event w'
      else callListeners rest type fuel env event w
  end.

Definition dispatch (type : string) (fuel : nat) (env : Env) (event : Event)
    (w : World) : Result World :=
  callListeners (listeners w) type fuel env event w.

(* ================================================================= *)
(** ** JSON text *)

(** [JSON.stringify(value, null, 2)] and [JSON.parse] of the host, as
    ECMAScript defines them ([SerializeJSONProperty], [QuoteJSONString],
    the JSON grammar), on the values of this development: integer and
    non-finite numbers, strings of 8-bit code units. *)
Module JSON.

Definition nl : string := String "010"%char EmptyString.
Definition backslash : ascii := "092"%char.
Definition dq : ascii := "034"%char.

(** The gap of [JSON.stringify(value, null, 2)]. *)
Definition gap : string := "  ".

Definition hexDigit (n : nat) : ascii :=
  match n with
  | 0 => "0" | 1 => "1" | 2 => "2" | 3 => "3" | 4 => "4" | 5 => "5"
  | 6 => "6" | 7 => "7" | 8 => "8" | 9 => "9" | 10 => "a" | 11 => "b"
  | 12 => "c" | 13 => "d" | 14 => "e" | _ => "f"
  end%char.

Definition esc (c : ascii) : string := String backslash (String c EmptyString).

(** One code unit of [QuoteJSONString]. *)
Definition escapeChar (c : ascii) : string :=
  let n := nat_of_ascii c in
  if (n =? 8)%nat then esc "b"
  else if (n =? 9)%nat then esc "t"
  else if (n =? 10)%nat then esc "n"
  else if (n =? 12)%nat then esc "f"
  else if (n =? 13)%nat then esc "r"
  else if (n =? 34)%nat then esc dq
  else if (n =? 92)%nat then esc backslash
  else if (n <? 32)%nat then
    String backslash
      (String "u" (String "0" (String "0"
         (String (hexDigit (n / 16)) (String (hexDigit (n mod 16)) EmptyString)))))
  else String c EmptyString.

Fixpoint escapeAll (s : string) : string :=
  match s with
  | EmptyString => EmptyString
  | String c rest => escapeChar c ++ escapeAll rest
  end.

Definition quoteJSONString (s : string) : string :=
  String dq (escapeAll s ++ String dq EmptyString).

(** [Number::toString] of an integer. *)
Definition numberToString (z : Z) : string :=
  NilEmpty.string_of_int (Z.to_int z).

(** [SerializeJSONProperty] with the indentation reached so far;
    [None] is [undefined]. *)
Fixpoint serializeJSONProperty (indent : string) (v : JSValue) : prop :=
  match v with
  | JUndefined => None
  | JNull => Some "null"
  | JBool b => Some (if b then "true" else "false")
  | JNumber (Int z) => Some (numberToString z)
  | JNumber NotFinite => Some "null"
  | JString s => Some (quoteJSONString s)
  | JArray items =>
      let stepback := indent in
      let indent := indent ++ gap in
      let partial :=
        map (fun item =>
               match serializeJSONProperty indent item with
               | Some strP => strP
               | None => "null"
               end) items in
      Some (match partial with
            | [] => "[]"
            | _ :: _ =>
                let separator := "," ++ nl ++ indent in
                "[" ++ nl ++ indent ++ Str.join separator partial
                    ++ nl ++ stepback ++ "]"
            end)
  | JObject fields =>
      let stepback := indent in
      let indent := indent ++ gap in
      let partial :=
        flat_map (fun kv =>
                    match serializeJSONProperty indent (snd kv) with
                    | Some strP => [quoteJSONString (fst kv) ++ ": " ++ strP]
                    | None => []
                    end) fields in
      Some (match partial with
            | [] => "{}"
            | _ :: _ =>
                let separator := "," ++ nl ++ indent in
                "{" ++ nl ++ indent ++ Str.join separator partial
                    ++ nl ++ stepback ++ "}"
            end)
  end.

Definition stringify (v : JSValue) : prop := serializeJSONProperty EmptyString v.

(** *** Reading JSON text *)

Notation "' p <-? r ;; k" :=
  (match r with Some p => k | None => None end)
  (at level 61, p pattern, r at next level, right associativity).

Definition isWs (c : ascii) : bool :=
  let n := nat_of_ascii c in
  (n =? 32)%nat || (n =? 9)%nat || (n =? 10)%nat || (n =? 13)%nat.

Fixpoint skipWs (s : string) : string :=
  match s with
  | EmptyString => EmptyString
  | String c rest => if isWs c then skipWs rest else s
  end.

(** Skip white space, then require the character [c]. *)
Definition expect (c : ascii) (s : string) : option string :=
  match skipWs s with
  | String c' rest => if Ascii.eqb c' c then Some rest else None
  | EmptyString => None
  end.

Fixpoint literal (word : string) (s : string) : option string :=
  match word, s with
  | EmptyString, _ => Some s
  | String w word', String c rest =>
      if Ascii.eqb w c then literal word' rest else None
  | String _ _, EmptyString => None
  end.

Definition hexValue (c : ascii) : option nat :=
  let n := nat_of_ascii c in
  if (48 <=? n)%nat && (n <=? 57)%nat then Some (n - 48)
  else if (97 <=? n)%nat && (n <=? 102)%nat then Some (n - 87)
  else if (65 <=? n)%nat && (n <=? 70)%nat then Some (n - 55)
  else None.

Definition unescape (c : ascii) : option ascii :=
  let n := nat_of_ascii c in
  if (n =? 98)%nat then Some (ascii_of_nat 8)
  else if (n =? 116)%nat then Some (ascii_of_nat 9)
  else if (n =? 110)%nat then Some (ascii_of_nat 10)
  else if (n =? 102)%nat then Some (ascii_of_nat 12)
  else if (n =? 114)%nat then Some (ascii_of_nat 13)
  else if (n =? 34)%nat || (n =? 92)%nat || (n =? 47)%nat then Some c
  else None.

(** The characters of a string literal after its opening quote, up to
    and including the closing quote.  Code units above 255 are outside
    the 8-bit strings of this development and are refused. *)
Fixpoint parseChars (s : string) : option (string * string) :=
  match s with
  | EmptyString => None
  | String c rest =>
      if Ascii.eqb c dq then Some (EmptyString, rest)
      else if Ascii.eqb c backslash then
        match rest with
        | EmptyString => None
        | String e rest' =>
            if Ascii.eqb e "u" then
              match rest' with
              | String h1 (String h2 (String h3 (String h4 rest''))) =>
                  ' a <-? hexValue h1 ;;
                  ' b <-? hexValue h2 ;;
                  ' c <-? hexValue h3 ;;
                  ' d <-? hexValue h4 ;;
                  let code := (((a * 16 + b) * 16 + c) * 16 + d)%nat in
                  if (code <? 256)%nat then
                    ' (chars, after) <-? parseChars rest'' ;;
                    Some (String (ascii_of_nat code) chars, after)
                  else None
              | _ => None
              end
            else
              ' u <-? unescape e ;;
              ' (chars, after) <-? parseChars rest' ;;
              Some (String u chars, after)
        end
      else if (nat_of_ascii c <? 32)%nat then None
      else
        ' (chars, after) <-? parseChars rest ;;
        Some (String c chars, after)
  end.

Definition digit (c : ascii) : option (Decimal.uint -> Decimal.uint) :=
  match nat_of_ascii c with
  | 48 => Some Decimal.D0 | 49 => Some Decimal.D1 | 50 => Some Decimal.D2
  | 51 => Some Decimal.D3 | 52 => Some Decimal.D4 | 53 => Some Decimal.D5
  | 54 => Some Decimal.D6 | 55 => Some Decimal.D7 | 56 => Some Decimal.D8
  | 57 => Some Decimal.D9 | _ => None
  end.

(** The longest run of digits at the head of [s]. *)
Fixpoint spanDigits (s : string) : Decimal.uint * string :=
  match s with
  | EmptyString => (Decimal.Nil, s)
  | String c rest =>
      match digit c with
      | Some mk => let (d, after) := spanDigits rest in (mk d, after)
      | None => (Decimal.Nil, s)
      end
  end.

Definition startsFraction (s : string) : bool :=
  match s with
  | String c _ => Ascii.eqb c "." || Ascii.eqb c "e" || Ascii.eqb c "E"
  | EmptyString => false
  end.

Definition splitSign (s : string) : bool * string :=
  match s with
  | String c rest => if Ascii.eqb c "-" then (true, rest) else (false, s)
  | EmptyString => (false, s)
  end.

(** An integer literal: an optional sign and digits without a leading
    zero.  Fractions and exponents are outside the integer numbers of
    this development and are refused. *)
Definition parseNumber (s : string) : option (JSValue * string) :=
  let (negative, digits) := splitSign s in
  let (d, after) := spanDigits digits in
  match d with
  | Decimal.Nil => None
  | _ =>
      if negb (Decimal.uint_beq (Decimal.unorm d) d) then None
      else if startsFraction after then None
      else
        Some (JNumber (Int (Z.of_int (if negative then Decimal.Neg d
                                      else Decimal.Pos d))), after)
  end.

(** A JSON value at the head of [s], and the text after it. *)
Fixpoint parseValue (fuel : nat) (s : string) {struct fuel}
    : option (JSValue * string) :=
  match fuel with
  | O => None
  | S fuel' =>
      match skipWs s with
      | EmptyString => None
      | String c rest =>
          if Ascii.eqb c "{" then
            match expect "}" rest with
            | Some after => Some (JObject [], after)
            | None =>
                ' (fields, after) <-? parseMembers fuel' rest ;;
                Some (JObject fields, after)
            end
          else if Ascii.eqb c "[" then
            match expect "]" rest with
            | Some after => Some (JArray [], after)
            | None =>
                ' (items, after) <-? parseItems fuel' rest ;;
                Some (JArray items, after)
            end
          else if Ascii.eqb c dq then
            ' (chars, after) <-? parseChars rest ;;
            Some (JString chars, after)
          else if Ascii.eqb c "n" then
            ' after <-? literal "ull" rest ;; Some (JNull, after)
          else if Ascii.eqb c "t" then
            ' after <-? literal "rue" rest ;; Some (JBool true, after)
          else if Ascii.eqb c "f" then
            ' after <-? literal "alse" rest ;; Some (JBool false, after)
          else parseNumber (String c rest)
      end
  end

with parseItems (fuel : nat) (s : string) {struct fuel}
    : option (list JSValue * string) :=
  match fuel with
  | O => None
  | S fuel' =>
      ' (item, s1) <-? parseValue fuel' s ;;
      match skipWs s1 with
      | EmptyString => None
      | String c s2 =>
          if Ascii.eqb c "," then
            ' (more, after) <-? parseItems fuel' s2 ;;
            Some (item :: more, after)
          else if Ascii.eqb c "]" then Some ([item], s2)
          else None
      end
  end

with parseMembers (fuel : nat) (s : string) {struct fuel}
    : option (list (string * JSValue) * string) :=
  match fuel with
  | O => None
  | S fuel' =>
      ' s1 <-? expect dq s ;;
      ' (k, s2) <-? parseChars s1 ;;
      ' s3 <-? expect ":" s2 ;;
      ' (v, s4) <-? parseValue fuel' s3 ;;
      match skipWs s4 with
      | EmptyString => None
      | String c s5 =>
          if Ascii.eqb c "," then
            ' (more, after) <-? parseMembers fuel' s5 ;;
            Some ((k, v) :: more, after)
          else if Ascii.eqb c "}" then Some ([(k, v)], s5)
          else None
      end
  end.

(** [JSON.parse]: [None] is a [SyntaxError].  A value and an item or
    member list are entered at most once per character, so twice the
    length of the text is fuel enough. *)
Definition parse (text : string) : option JSValue :=
  ' (v, after) <-? parseValue (2 * String.length text + 2) text ;;
  match skipWs after with
  | EmptyString => Some v
  | String _ _ => None
  end.

(** What is left of a value once it has been written and read back:
    [undefined] properties are gone, [undefined] items and numbers that
    are not finite have become [null]. *)
Fixpoint revive (v : JSValue) : JSValue :=
  match v with
  | JUndefined => JNull
  | JNumber NotFinite => JNull
  | JArray items => JArray (map revive items)
  | JObject fields =>
      JObject (flat_map (fun kv =>
                           match snd kv with
                           | JUndefined => []
                           | _ => [(fst kv, revive (snd kv))]
                           end) fields)
  | other => other
  end.

(** *** Shapes of the written text, for the properties below *)

Fixpoint allWs (s : string) : bool :=
  match s with
  | EmptyString => true
  | String c rest => isWs c && allWs rest
  end.

(** What may follow a value in the text that [serializeJSONProperty]
    writes: the end, a comma, or a line feed. *)
Definition boundary (rest : string) : Prop :=
  match rest with
  | EmptyString => True
  | String c _ => c = ","%char \/ c = "010"%char
  end.

(** The first character of a number: a sign or a digit. *)
Definition numHead (c : ascii) : bool :=
  Ascii.eqb c "-" || match digit c with Some _ => true | None => false end.

(** The first character of a written value. *)
Definition valueHead (c : ascii) : bool :=
  numHead c || Ascii.eqb c "n" || Ascii.eqb c "t" || Ascii.eqb c "f"
  || Ascii.eqb c dq || Ascii.eqb c "[" || Ascii.eqb c "{".

Definition headed (good : ascii -> bool) (s : string) : Prop :=
  match s with
  | String c _ => good c = true
  | EmptyString => False
  end.

(** [Str.join sep parts ++ tail], nested to the right. *)
Fixpoint joined (sep : string) (parts : list string) (tail : string) : string :=
  match parts with
  | [] => tail
  | [p] => p ++ tail
  | p :: rest => p ++ sep ++ joined sep rest tail
  end.

(** A value written at indentation [indent] reads back as [revive] of
    it, whatever follows it. *)
Definition readsBack (indent : string) (v : JSValue) : Prop :=
  forall (text rest : string) (fuel : nat),
    serializeJSONProperty indent v = Some text ->
    boundary rest ->
    2 * String.length (text ++ rest) < fuel ->
    parseValue fuel (text ++ rest) = Some (revive v, rest).

Definition itemText (indent : string) (item : JSValue) : string :=
  match serializeJSONProperty indent item with
  | Some strP => strP
  | None => "null"
  end.

Definition memberText (indent : string) (kv : string * JSValue) : list string :=
  match serializeJSONProperty indent (snd kv) with
  | Some strP => [quoteJSONString (fst kv) ++ ": " ++ strP]
  | None => []
  end.

Definition reviveMember (kv : string * JSValue) : list (string * JSValue) :=
  match snd kv with
  | JUndefined => []
  | _ => [(fst kv, revive (snd kv))]
  end.

End JSON.

(* ================================================================= *)
(** ** Public API *)

Definition getAllEvents (t : Tracker) : list JSValue := events t.

Definition getEventsBy (field wanted : string) (t : Tracker) : list JSValue :=
  filter (fun event =>
            match getProp field event with
            | JString s => String.eqb s wanted
            | _ => false
            end) (events t).

Definition getEventsByType (eventType : string) (t : Tracker) : list JSValue :=
  getEventsBy "type_of_event" eventType t.

Definition getEventsByObjectType (objectType : string) (t : Tracker) : list JSValue :=
  getEventsBy "event_object" objectType t.

Definition exportData (env : Env) (t : Tracker) : JSValue :=
  JObject [ ("session", sessionValue (session t));
            ("events", JArray (events t));
            ("exportTime", JString (isoTime env)) ].

Definition exportEventsAsJSON (env : Env) (t : Tracker) : prop :=
  JSON.stringify (exportData env t).

(* ================================================================= *)
(** ** Position of a node in its tree *)

(** The [k]-th ancestor, following [parentNode]. *)
Fixpoint nthParent (d : Document) (k : nat) (e : ref) : option ref :=
  match k with
  | O => Some e
  | S k' =>
      match parentNode (node d e) with
      | Some p => nthParent d k' p
      | None => None
      end
  end.

(** [e] sits in a finite tree, with at most [n] nodes above it. *)
Definition rooted (d : Document) (e : ref) (n : nat) : Prop :=
  nthParent d (S n) e = None.

(** Nodes of element type carry a tag name. *)
Definition elementsTagged (d : Document) : Prop :=
  forall r, isElement (node d r) = true -> tagName (node d r) <> None.

(* ================================================================= *)
(** ** The classifier and the path as the specification words them *)

Module Spec.

(** The closed enumeration of category labels. *)
Definition labels : list string :=
  [ "LINK"; "BUTTON"; "TEXT_FIELD"; "CHECKBOX"; "RADIO_BUTTON"; "FILE_UPLOAD";
    "SLIDER"; "DATE_PICKER"; "COLOR_PICKER"; "DROP_DOWN"; "INPUT_FIELD";
    "IMAGE"; "VIDEO"; "AUDIO"; "IFRAME"; "CANVAS"; "SVG"; "TABLE"; "LIST";
    "LIST_ITEM"; "CONTAINER"; "TEXT_SPAN"; "PARAGRAPH"; "HEADING"; "FORM";
    "LABEL"; "NAVIGATION"; "HEADER"; "FOOTER"; "SECTION"; "ARTICLE";
    "MAIN_CONTENT"; "KEYBOARD"; "MOUSE"; "WINDOW"; "PAGE"; "ELEMENT" ].

Definition formTags : list string := ["input"; "textarea"; "select"].

Definition subtypeTable : list (string * string) :=
  [ ("text", "TEXT_FIELD"); ("password", "TEXT_FIELD"); ("email", "TEXT_FIELD");
    ("search", "TEXT_FIELD"); ("tel", "TEXT_FIELD"); ("url", "TEXT_FIELD");
    ("checkbox", "CHECKBOX"); ("radio", "RADIO_BUTTON"); ("file", "FILE_UPLOAD");
    ("submit", "BUTTON"); ("button", "BUTTON"); ("range", "SLIDER");
    ("date", "DATE_PICKER"); ("time", "DATE_PICKER");
    ("datetime-local", "DATE_PICKER"); ("color", "COLOR_PICKER") ].

Definition tagTable : list (string * string) :=
  [ ("a", "LINK"); ("button", "BUTTON"); ("img", "IMAGE"); ("video", "VIDEO");
    ("audio", "AUDIO"); ("iframe", "IFRAME"); ("canvas", "CANVAS");
    ("svg", "SVG"); ("table", "TABLE"); ("ul", "LIST"); ("ol", "LIST");
    ("li", "LIST_ITEM"); ("div", "CONTAINER"); ("span", "TEXT_SPAN");
    ("p", "PARAGRAPH"); ("h1", "HEADING"); ("h2", "HEADING"); ("h3", "HEADING");
    ("h4", "HEADING"); ("h5", "HEADING"); ("h6", "HEADING"); ("form", "FORM");
    ("label", "LABEL"); ("nav", "NAVIGATION"); ("header", "HEADER");
    ("footer", "FOOTER"); ("section", "SECTION"); ("article", "ARTICLE");
    ("main", "MAIN_CONTENT") ].

Fixpoint assoc (k : string) (table : list (string * string)) (fallback : string)
    : string :=
  match table with
  | [] => fallback
  | (k', label) :: rest => if String.eqb k k' then label else assoc k rest fallback
  end.

(** [tag] is the element's tag name in lower case. *)
Definition classify (tag : string) (subtype : option string) : string :=
  if includes formTags tag then
    if String.eqb tag "select" then "DROP_DOWN"
    else
      match subtype with
      | Some st => assoc (Str.toLowerCase st) subtypeTable "INPUT_FIELD"
      | None => "INPUT_FIELD"
      end
  else assoc tag tagTable "ELEMENT".

(** [s] is an element with the tag name of [e]. *)
Definition sameTag (d : Document) (e s : ref) : bool :=
  isElement (node d s) && prop_eqb (tagName (node d s)) (tagName (node d e)).

(** The 1-based occurrence index of [e] among the siblings before it
    that share its tag name, [e] itself counted last. *)
Definition occurrence (d : Document) (e : ref) : nat :=
  match parentNode (node d e) with
  | Some p => S (List.length (filter (sameTag d e) (preceding e (childNodes (node d p)))))
  | None => 1
  end.

(** [tag], or [tag:nth-of-type(n)] when [n > 1]. *)
Definition segment (tag : string) (n : nat) : string :=
  if (1 <? n)%nat then tag ++ ":nth-of-type(" ++ Str.of_nat n ++ ")" else tag.

(** The segments of the walk from [e] upwards, outermost first: the walk
    ends at a node without a parent element, which gives no segment, or
    at a node with an id, which gives [tag#id]. *)
Inductive walk (d : Document) : ref -> list string -> Prop :=
| walk_root e :
    parentElement d e = None ->
    walk d e []
| walk_id e p t :
    parentElement d e = Some p ->
    tagName (node d e) = Some t ->
    truthy (id (node d e)) = true ->
    walk d e [Str.toLowerCase t ++ "#" ++ interp (id (node d e))]
| walk_up e p t segs :
    parentElement d e = Some p ->
    tagName (node d e) = Some t ->
    truthy (id (node d e)) = false ->
    walk d p segs ->
    walk d e (segs ++ [segment (Str.toLowerCase t) (occurrence d e)])%list.


End Spec.

(* ================================================================= *)
(** ** A small page *)

Module Page.

Definition textNode (parent : option ref) : Node :=
  mkNode 3 None None None None None None None None None None parent [].

Definition elem (tag : string) (i cls : prop) (parent : option ref)
    (children : list ref) : Node :=
  mkNode 1 (Some tag) i cls None None None None None None None parent children.

(** <<
    #document
      html
        body
          ul
            #text  li  #text  li  li
          div#main
            span
            p.note.wide
          ol
            li  p  li
    >>
    Node 7 is a [div] attached to nothing. *)
Definition nodes (r : ref) : Node :=
  match r with
  | 0 => mkNode 9 None None None None None None None None None None None [1]
  | 1 => elem "HTML" (Some EmptyString) (Some EmptyString) (Some 0) [2]
  | 2 => elem "BODY" (Some EmptyString) (Some EmptyString) (Some 1) [3; 8; 13]
  | 3 => elem "UL" (Some EmptyString) (Some EmptyString) (Some 2) [9; 4; 10; 5; 6]
  | 4 => elem "LI" (Some EmptyString) (Some EmptyString) (Some 3) []
  | 5 => elem "LI" (Some EmptyString) (Some EmptyString) (Some 3) []
  | 6 => elem "LI" (Some EmptyString) (Some EmptyString) (Some 3) []
  | 7 => elem "DIV" (Some EmptyString) (Some EmptyString) None []
  | 8 => elem "DIV" (Some "main") (Some EmptyString) (Some 2) [11; 12]
  | 9 => textNode (Some 3)
  | 10 => textNode (Some 3)
  | 11 => elem "SPAN" (Some EmptyString) (Some EmptyString) (Some 8) []
  | 12 => elem "P" (Some EmptyString) (Some "note  wide") (Some 8) []
  | 13 => elem "OL" (Some EmptyString) (Some EmptyString) (Some 2) [14; 15; 16]
  | 14 => elem "LI" (Some EmptyString) (Some EmptyString) (Some 13) []
  | 15 => elem "P" (Some EmptyString) (Some EmptyString) (Some 13) []
  | 16 => elem "LI" (Some EmptyString) (Some EmptyString) (Some 13) []
  | _ => textNode None
  end.

Definition doc : Document := mkDocument nodes (Some 2).



(** An [input] of type [CheckBox]. *)
Definition checkbox : Node :=
  mkNode 1 (Some "INPUT") (Some EmptyString) (Some EmptyString)
    (Some "CheckBox") None (Some "on") None None None None (Some 2) [].

Definition session0 : Session :=
  mkSession (Some "session_1762142400000_k3j9x2a1b")
    (Some "2025-11-03T04:00:00.000Z") "https://example.test/list"
    "Mozilla/5.0" "1920x1080" "1280x720".

Definition config0 : Config := mkConfig true true false true true false.

Definition tracker0 : Tracker := mkTracker [] session0 config0.

Definition styles (element : ref) (property : string) : prop :=
  if String.eqb property "display" then Some "block" else Some EmptyString.

(** The page at clock reading [clock]. *)
Definition env (clock : Z) : Env :=
  mkEnv doc (mkWindow 0 120 1280 720 2400) styles "2025-11-03T04:00:01.000Z" clock.

Definition eventOn (element : ref) : Event :=
  mkEvent element 10 20 10 140 EmptyString EmptyString false false false.

(** The tracker after a click on the third [li] of the [ul]. *)
Definition afterClick : Tracker :=
  match handleClickEvent 4 (env 1762142401000) (eventOn 6) tracker0 with
  | Ok t => t
  | _ => tracker0
  end.

(** The tracker after a change of the third [li] of the [ul]. *)
Definition afterChange : Tracker :=
  match handleChangeEvent (env 1762142401000) (eventOn 6) tracker0 with
  | Ok t => t
  | _ => tracker0
  end.

End Page.

(* ================================================================= *)
(** ** Initialisation, repeated calls and the summaries *)

(** What [trackPageView] reads from [window.location] and [document]. *)
Record PageInfo : Type := mkPageInfo {
  locationHref : string;
  pathname     : string;
  referrer     : string;
  title        : string
}.

(** [generateSessionId]; [random36] is [Math.random().toString(36)]. *)
Definition generateSessionId (env : Env) (random36 : string) : string :=
  "session_" ++ JSON.numberToString (now env) ++ "_" ++ substring 2 9 random36.

Definition trackPageView (env : Env) (page : PageInfo) (t : Tracker) : Tracker :=
  let w := window env in
  let pageViewEvent :=
    JObject [ ("timestamp", JString (isoTime env));
              ("type_of_event", JString "PAGE_VIEW");
              ("event_object", JString "PAGE");
              ("url", JString (locationHref page));
              ("pathname", JString (pathname page));
              ("referrer", JString (orElse (Some (referrer page)) "Direct"));
              ("title", JString (title page));
              ("viewport",
                JString (JSON.numberToString (innerWidth w) ++ "x"
                         ++ JSON.numberToString (innerHeight w))) ] in
  push pageViewEvent t.

(** [initActivityTracker].  The [beforeunload] listener it adds last only
    prints a summary and changes nothing here, so it has no entry in the
    listener table. *)
Definition initActivityTracker (env : Env) (page : PageInfo) (random36 : string)
    (w : World) : World :=
  let t := tracker w in
  let s := session t in
  let s := mkSession (Some (generateSessionId env random36)) (Some (isoTime env))
             (pageUrl s) (userAgent s) (screenResolution s) (viewport s) in
  let t := trackPageView env page (mkTracker (events t) s (config t)) in
  registerEventListeners (mkWorld t (closures w) (listeners w)).

(** The [type_of_event] each handler writes. *)
Definition kindOf (h : Handler) : string :=
  match h with
  | HandleClick => "CLICK"
  | HandleHover => "HOVER"
  | HandleScroll => "SCROLL"
  | HandleFocus => "FOCUS"
  | HandleBlur => "BLUR"
  | HandleChange => "CHANGE"
  | HandleSubmit => "FORM_SUBMIT"
  | HandleKeyboard => "KEYBOARD"
  | HandleMouseMove => "MOUSE_MOVE"
  | HandleResize => "RESIZE"
  end.

(** The page calls one listener several times, at the readings given. *)
Fixpoint callRepeatedly (l : Listener) (fuel : nat) (calls : list (Env * Event))
    (w : World) : Result World :=
  match calls with
  | [] => Ok w
  | (env, event) :: rest =>
      w' <- callListener l fuel env event w ;;
      callRepeatedly l fuel rest w'
  end.

(** A tree as the DOM builds it: element nodes carry a tag name, and a
    node that is a parent is an element or has no parent itself (a
    document or a fragment). *)
Definition documentLike (d : Document) : Prop :=
  elementsTagged d
  /\ forall r p, parentNode (node d r) = Some p ->
                 isElement (node d p) = true \/ parentNode (node d p) = None.

(** Every throttled listener of the table refers to a closure. *)
Definition listenersBound (w : World) : Prop :=
  Forall (fun entry =>
            match snd entry with
            | Wrapped c => c < List.length (closures w)
            | Plain _ => True
            end) (listeners w).

(** The names every object inherits from [Object.prototype]. *)
Definition inheritedNames : list string :=
  [ "constructor"; "hasOwnProperty"; "isPrototypeOf"; "propertyIsEnumerable";
    "toLocaleString"; "toString"; "valueOf"; "__proto__"; "__defineGetter__";
    "__defineSetter__"; "__lookupGetter__"; "__lookupSetter__" ].

(** The key under which the summaries count a record: its field when that
    is a string no object inherits.  Other values are outside this
    counting ([None]). *)
Definition ownKey (v : JSValue) : option string :=
  match v with
  | JString s => if includes inheritedNames s then None else Some s
  | _ => None
  end.

(** [counts[k] = (counts[k] || 0) + 1] on a table of own properties. *)
Fixpoint bump (k : string) (counts : list (string * nat)) : list (string * nat) :=
  match counts with
  | [] => [(k, 1)]
  | (k', n) :: rest =>
      if String.eqb k' k then (k', S n) :: rest else (k', n) :: bump k rest
  end.

(** The [forEach] loops of [handlePageUnload] and [printSummaryReport]. *)
Fixpoint countBy (field : string) (records : list JSValue)
    (counts : list (string * nat)) : option (list (string * nat)) :=
  match records with
  | [] => Some counts
  | record :: rest =>
      match ownKey (getProp field record) with
      | Some k => countBy field rest (bump k counts)
      | None => None
      end
  end.

Definition eventCounts (t : Tracker) : option (list (string * nat)) :=
  countBy "type_of_event" (events t) [].

Definition objectCounts (t : Tracker) : option (list (string * nat)) :=
  countBy "event_object" (events t) [].

(** [counts[k]], 0 when the table has no such property. *)
Fixpoint countOf (k : string) (counts : list (string * nat)) : nat :=
  match counts with
  | [] => 0
  | (k', n) :: rest => if String.eqb k' k then n else countOf k rest
  end.

(* ================================================================= *)
(** ** What the records hold *)

(** One record in the shape all handlers share. *)
Definition stamped (env : Env) (h : Handler) (record : JSValue) : Prop :=
  getProp "timestamp" record = JString (isoTime env)
  /\ getProp "type_of_event" record = JString (kindOf h)
  /\ exists label,
       getProp "event_object" record = JString label /\ In label Spec.labels.

Definition specialKeys : list string :=
  ["Enter"; "Escape"; "Tab"; "Backspace"; "Delete"].

(** A record of a key press holds one of the special keys. *)
Definition keySafe (record : JSValue) : Prop :=
  getProp "type_of_event" record = JString "KEYBOARD" ->
  exists k, getProp "key" record = JString k /\ In k specialKeys.

(** The tag name a record gives for its element is one of [tags]. *)
Definition tagAmong (tags : list string) (record : JSValue) : Prop :=
  exists tag,
    getProp "tagName" (getProp "element" record) = JString tag /\ In tag tags.

(** Hover records are about interactive elements, focus and blur records
    about form controls. *)
Definition targetSafe (record : JSValue) : Prop :=
  (getProp "type_of_event" record = JString "HOVER" ->
   tagAmong ["a"; "button"; "input"; "select"; "textarea"] record)
  /\ (getProp "type_of_event" record = JString "FOCUS"
      \/ getProp "type_of_event" record = JString "BLUR" ->
      tagAmong ["input"; "textarea"; "select"] record).

(** The sum of a table of counts. *)
Definition totalOf (counts : list (string * nat)) : nat :=
  fold_right (fun entry sum => snd entry + sum) 0 counts.

(** The record has a string under [field] that is a key of its own. *)
Definition keyed (field : string) (record : JSValue) : Prop :=
  exists s, getProp field record = JString s /\ includes inheritedNames s = false.

(** Every record can be counted by kind and by label. *)
Definition countable (t : Tracker) : Prop :=
  Forall (fun record => keyed "type_of_event" record /\ keyed "event_object" record)
         (events t).

(** A property as it reads after the export has been parsed: an absent
    one stays absent, any other value is revived. *)
Definition readBack (v : JSValue) : JSValue :=
  match v with
  | JUndefined => JUndefined
  | _ => JSON.revive v
  end.

(** The sign and the digits a text starts with, and what follows them. *)
Definition readInt (s : string) : bool * (Decimal.uint * string) :=
  let (negative, digits) := JSON.splitSign s in (negative, JSON.spanDigits digits).

(** The ancestors of [e] lead to the body or to a node with an id. *)
Inductive anchored (d : Document) : ref -> Prop :=
| anchored_id e :
    truthy (id (node d e)) = true -> anchored d e
| anchored_body e :
    isBody d e = true -> anchored d e
| anchored_child e p t :
    parentNode (node d e) = Some p ->
    In e (childNodes (node d p)) ->
    tagName (node d e) = Some t ->
    anchored d p ->
    anchored d e.

(** The ancestors of [e] end at a node that is not the body, has no id
    and no parent, and [e] is not that node. *)
Inductive drifting (d : Document) : ref -> Prop :=
| drifting_top e p t :
    truthy (id (node d e)) = false -> isBody d e = false ->
    parentNode (node d e) = Some p ->
    In e (childNodes (node d p)) ->
    tagName (node d e) = Some t ->
    truthy (id (node d p)) = false -> isBody d p = false ->
    parentNode (node d p) = None ->
    drifting d e
| drifting_child e p t :
    truthy (id (node d e)) = false -> isBody d e = false ->
    parentNode (node d e) = Some p ->
    In e (childNodes (node d p)) ->
    tagName (node d e) = Some t ->
    drifting d p ->
    drifting d e.

(* ================================================================= *)
(** ** A page with controls *)

Module Demo.

Definition longText : string :=
  "Subscribe to the weekly newsletter and the monthly digest".

Definition longValue : string :=
  "a.very.long.mail.box.name.for.the.weekly.letter@example.test".

(** <<
    #document
      html
        body
          button.btn       (its text is [longText])
          input#email      (its value is [longValue])
          a
    >> *)
Definition formNodes (r : ref) : Node :=
  match r with
  | 0 => mkNode 9 None None None None None None None None None None None [1]
  | 1 => Page.elem "HTML" (Some EmptyString) (Some EmptyString) (Some 0) [2]
  | 2 => Page.elem "BODY" (Some EmptyString) (Some EmptyString) (Some 1) [3; 4; 5]
  | 3 => mkNode 1 (Some "BUTTON") (Some EmptyString) (Some "btn") (Some "submit")
           (Some EmptyString) (Some EmptyString) None (Some longText) None None
           (Some 2) []
  | 4 => mkNode 1 (Some "INPUT") (Some "email") (Some EmptyString) (Some "text")
           (Some "email") (Some longValue) None (Some EmptyString) None None
           (Some 2) []
  | 5 => mkNode 1 (Some "A") (Some EmptyString) (Some EmptyString) None
           None None (Some "https://example.test/about") (Some "About") None None
           (Some 2) []
  | _ => Page.textNode None
  end.

Definition formDoc : Document := mkDocument formNodes (Some 2).

(** The page at clock reading [clock]. *)
Definition formEnv (clock : Z) : Env :=
  mkEnv formDoc (mkWindow 0 120 1280 720 2400) Page.styles "2025-11-03T04:00:01.000Z"
    clock.

Definition keyEvent (k : string) : Event :=
  mkEvent 4 0 0 0 0 k k false false false.

Definition page : PageInfo :=
  mkPageInfo "https://example.test/list" "/list" EmptyString "List".

(** The listeners registered under [Page.config0]: scroll and form
    tracking on, mouse tracking off. *)
Definition registered : World := registerEventListeners (mkWorld Page.tracker0 [] []).

Definition started : World :=
  initActivityTracker (formEnv 1762142400000) page "0.k3j9x2a1b"
    (mkWorld Page.tracker0 [] []).

(** The world after the page has delivered one event. *)
Definition after (type : string) (event : Event) (w : World) : World :=
  match dispatch type 3 (formEnv 1762142401000) event w with
  | Ok w' => w'
  | _ => w
  end.

Definition clicked : World := after "click" (Page.eventOn 3) registered.

Definition hovered : World := after "mouseover" (Page.eventOn 3) registered.

Definition entered : World := after "keydown" (keyEvent "Enter") registered.

Definition buttonClicked : Tracker :=
  match handleClickEvent 3 (formEnv 1762142401000) (Page.eventOn 3) Page.tracker0 with
  | Ok t => t
  | _ => Page.tracker0
  end.

Definition inputChanged : Tracker :=
  match handleChangeEvent (formEnv 1762142401000) (Page.eventOn 4) Page.tracker0 with
  | Ok t => t
  | _ => Page.tracker0
  end.

(** Three scrolls, 100 and then 600 milliseconds apart. *)
Definition scrolls : list (Env * Event) :=
  [ (formEnv 1762142401000, Page.eventOn 0);
    (formEnv 1762142401100, Page.eventOn 0);
    (formEnv 1762142401700, Page.eventOn 0) ].

End Demo.

(* ================================================================= *)
(** ** The class list *)






(** A value that JSON writes as it is: no [undefined], no number that is
    not finite, at any depth. *)
Fixpoint plain (v : JSValue) : bool :=
  match v with
  | JUndefined => false
  | JNumber NotFinite => false
  | JArray items => forallb plain items
  | JObject fields => forallb (fun kv => plain (snd kv)) fields
  | _ => true
  end.

Module Styled.




End Styled.

(* ################################################################# *)
(** * Properties *)

(* ================================================================= *)
(** ** Classification *)

Ltac split_eqb :=
  repeat match goal with
         | |- context [String.eqb ?a ?b] =>
             destruct (String.eqb_spec a b);
             [ subst; try reflexivity | cbn ]
         end.

Ltac pick_label := cbn; repeat (first [left; reflexivity | right]).

Lemma assoc_tag_label (x : string) :
  In (Spec.assoc x Spec.tagTable "ELEMENT") Spec.labels.
Proof.
  unfold Spec.tagTable; cbn.
  split_eqb; pick_label.
Qed.

Lemma assoc_subtype_label (y : string) :
  In (Spec.assoc y Spec.subtypeTable "INPUT_FIELD") Spec.labels.
Proof.
  unfold Spec.subtypeTable; cbn.
  split_eqb; pick_label.
Qed.

Lemma classify_label (tag : string) (subtype : option string) :
  In (Spec.classify tag subtype) Spec.labels.
Proof.
  unfold Spec.classify.
  destruct (includes Spec.formTags tag).
  - destruct (String.eqb tag "select"); [pick_label|].
    destruct subtype; [apply assoc_subtype_label | pick_label].
  - apply assoc_tag_label.
Qed.

(** C1.  On every element (a node that has a tag name) [getEventObjectType]
    returns one label, the one the two tables of the specification give:
    [select] is DROP_DOWN, [input] and [textarea] go by the lower-cased
    subtype with INPUT_FIELD for an unlisted or absent one, every other tag
    goes by the tag table with ELEMENT for an unlisted one; the label is a
    member of the closed enumeration. *)
Theorem getEventObjectType_classifies (n : Node) (t : string) :
  tagName n = Some t ->
  getEventObjectType n = Ok (Spec.classify (Str.toLowerCase t) (type_ n))
  /\ In (Spec.classify (Str.toLowerCase t) (type_ n)) Spec.labels.
Proof.
  intro Htag; split; [|apply classify_label].
  unfold getEventObjectType, Spec.classify, Spec.formTags.
  rewrite Htag; cbn.
  generalize (Str.toLowerCase t) as x; intro x.
  unfold includes; cbn.
  destruct (type_ n) as [st|]; cbn.
  - generalize (Str.toLowerCase st) as y; intro y.
    split_eqb; try reflexivity.
  - split_eqb; try reflexivity.
Qed.

Lemma getEventObjectType_classifies_witness :
  tagName Page.checkbox = Some "INPUT"
  /\ getEventObjectType Page.checkbox = Ok "CHECKBOX".
Proof.
  split; [reflexivity|].
  exact (proj1 (getEventObjectType_classifies Page.checkbox "INPUT" eq_refl)).
Defined.

(* ================================================================= *)
(** ** Trees *)

Lemma rooted_parent (d : Document) (e p : ref) (n : nat) :
  rooted d e (S n) -> parentNode (node d e) = Some p -> rooted d p n.
Proof.
  unfold rooted; intros H Hp.
  change (nthParent d (S (S n)) e) with
    (match parentNode (node d e) with
     | Some q => nthParent d (S n) q
     | None => None
     end) in H.
  now rewrite Hp in H.
Qed.

Lemma rooted_top (d : Document) (e : ref) :
  rooted d e 0 -> parentNode (node d e) = None.
Proof.
  unfold rooted; cbn. destruct (parentNode (node d e)); [discriminate | reflexivity].
Qed.

Lemma parentElement_parentNode (d : Document) (e p : ref) :
  parentElement d e = Some p ->
  parentNode (node d e) = Some p /\ isElement (node d p) = true.
Proof.
  unfold parentElement.
  destruct (parentNode (node d e)) as [q|]; [|discriminate].
  destruct (isElement (node d q)) eqn:E; [|discriminate].
  intros [= ->]; auto.
Qed.

(* ================================================================= *)
(** ** Sibling counts *)

Lemma countSameTag_filter (d : Document) (tag : prop) (chain : list ref) (nth : nat) :
  countSameTag d tag chain nth
  = nth + List.length (filter (fun s => prop_eqb (tagName (node d s)) tag) chain).
Proof.
  revert nth; induction chain as [|s rest IH]; intro nth; cbn; [lia|].
  rewrite IH. destruct (prop_eqb (tagName (node d s)) tag); cbn; lia.
Qed.

Lemma filter_filter {A : Type} (f g : A -> bool) (l : list A) :
  filter f (filter g l) = filter (fun x => g x && f x) l.
Proof.
  induction l as [|x l IH]; cbn; [reflexivity|].
  destruct (g x); cbn; [destruct (f x)|]; now rewrite IH.
Qed.

Lemma filter_rev_length {A : Type} (f : A -> bool) (l : list A) :
  List.length (filter f (rev l)) = List.length (filter f l).
Proof.
  induction l as [|x l IH]; cbn; [reflexivity|].
  rewrite filter_app, length_app, IH; cbn.
  destruct (f x); cbn; lia.
Qed.

Lemma countSameTag_occurrence (d : Document) (e : ref) :
  countSameTag d (tagName (node d e)) (previousElementSiblings d e) 1
  = Spec.occurrence d e.
Proof.
  rewrite countSameTag_filter.
  unfold previousElementSiblings, Spec.occurrence.
  destruct (parentNode (node d e)) as [p|]; [|reflexivity].
  rewrite filter_rev_length, filter_filter. reflexivity.
Qed.

Lemma xpathScan_found (d : Document) (e : ref) (siblings : list ref) (ix : nat) :
  In e siblings ->
  xpathScan d e siblings ix
  = Some (ix + List.length (filter (Spec.sameTag d e) (preceding e siblings))).
Proof.
  revert ix; induction siblings as [|s rest IH]; intros ix Hin; [destruct Hin|].
  cbn [xpathScan preceding]. destruct (Nat.eqb_spec s e) as [->|Hne].
  - cbn. f_equal; lia.
  - destruct Hin as [->|Hin]; [congruence|].
    cbn [filter].
    change (isElement (node d s)
            && prop_eqb (tagName (node d s)) (tagName (node d e)))
      with (Spec.sameTag d e s).
    destruct (Spec.sameTag d e s); rewrite (IH _ Hin); cbn [List.length];
      f_equal; lia.
Qed.

Lemma xpathScan_missing (d : Document) (e : ref) (siblings : list ref) (ix : nat) :
  ~ In e siblings -> xpathScan d e siblings ix = None.
Proof.
  revert ix; induction siblings as [|s rest IH]; intros ix Hnin; [reflexivity|].
  cbn [xpathScan]. destruct (Nat.eqb_spec s e) as [->|Hne].
  - exfalso; apply Hnin; now left.
  - assert (Hr : ~ In e rest) by (intro; apply Hnin; now right).
    destruct (_ && _); now apply IH.
Qed.

(* ================================================================= *)
(** ** Unfolding the two walks *)

Lemma cssPathLoop_unfold (fuel : nat) (d : Document) (element : ref) (path : list string) :
  cssPathLoop fuel d element path =
  match parentElement d element with
  | None => Ok path
  | Some parent =>
      selector <- toLowerCase_of (tagName (node d element)) ;;
      if truthy (id (node d element)) then
        Ok ((selector ++ "#" ++ interp (id (node d element))) :: path)
      else
        match fuel with
        | O => OutOfFuel
        | S fuel' =>
            cssPathLoop fuel' d parent
              (Spec.segment selector
                 (countSameTag d (tagName (node d element))
                    (previousElementSiblings d element) 1) :: path)
        end
  end.
Proof. destruct fuel; reflexivity. Qed.

Lemma getXPath_unfold (fuel : nat) (d : Document) (element : ref) :
  getXPath fuel d element =
  let n := node d element in
  if truthy (id n) then
    Ok (Some ("//*[@id=" ++ Str.dquote ++ interp (id n) ++ Str.dquote ++ "]"))
  else if isBody d element then Ok (Some "/html/body")
  else
    match parentNode n with
    | None => Ok None
    | Some p =>
        match xpathScan d element (childNodes (node d p)) 0 with
        | None => Ok None
        | Some ix =>
            match fuel with
            | O => OutOfFuel
            | S fuel' =>
                up <- getXPath fuel' d p ;;
                tag <- toLowerCase_of (tagName n) ;;
                Ok (Some (interp up ++ "/" ++ tag ++ "[" ++ Str.of_nat (ix + 1) ++ "]"))
            end
        end
    end.
Proof.
  destruct fuel; cbn; destruct (truthy _); try reflexivity;
    destruct (isBody _ _); try reflexivity;
    destruct (parentNode _); reflexivity.
Qed.

(* ================================================================= *)
(** ** Enough fuel *)

Lemma cssPathLoop_enough (n : nat) :
  forall (d : Document) (e : ref) (fuel : nat) (path : list string),
    rooted d e n -> n <= fuel ->
    cssPathLoop fuel d e path = cssPathLoop n d e path
    /\ cssPathLoop n d e path <> OutOfFuel.
Proof.
  induction n as [|n IH]; intros d e fuel path Hroot Hle.
  - rewrite !cssPathLoop_unfold.
    unfold parentElement. rewrite (rooted_top _ _ Hroot).
    split; [reflexivity | discriminate].
  - rewrite !cssPathLoop_unfold with (fuel := fuel).
    rewrite !cssPathLoop_unfold with (fuel := S n).
    destruct (parentElement d e) as [p|] eqn:Hp; [|split; [reflexivity | discriminate]].
    destruct (parentElement_parentNode _ _ _ Hp) as [Hpn _].
    destruct (tagName (node d e)) as [t|]; cbn [toLowerCase_of bind];
      [|split; [reflexivity | discriminate]].
    destruct (truthy (id (node d e))); [split; [reflexivity | discriminate]|].
    destruct fuel as [|fuel]; [lia|].
    apply IH; [eapply rooted_parent; eauto | lia].
Qed.

Lemma getXPath_enough (n : nat) :
  forall (d : Document) (e : ref) (fuel : nat),
    rooted d e n -> n <= fuel ->
    getXPath fuel d e = getXPath n d e /\ getXPath n d e <> OutOfFuel.
Proof.
  induction n as [|n IH]; intros d e fuel Hroot Hle.
  - rewrite !getXPath_unfold; cbv zeta.
    rewrite (rooted_top _ _ Hroot). cbv beta iota.
    destruct (truthy _); [split; [reflexivity | discriminate]|].
    destruct (isBody _ _); split; (reflexivity || discriminate).
  - rewrite getXPath_unfold with (fuel := fuel).
    rewrite getXPath_unfold with (fuel := S n). cbv zeta.
    destruct (truthy _); [split; [reflexivity | discriminate]|].
    destruct (isBody _ _); [split; [reflexivity | discriminate]|].
    destruct (parentNode (node d e)) as [p|] eqn:Hp; [|split; [reflexivity | discriminate]].
    destruct (xpathScan _ _ _ _); [|split; [reflexivity | discriminate]].
    destruct fuel as [|fuel]; [lia|].
    destruct (IH d p fuel) as [Heq Hne]; [eapply rooted_parent; eauto | lia |].
    rewrite Heq. split; [reflexivity|].
    destruct (getXPath n d p) as [up| |]; cbn [bind]; [|discriminate|congruence].
    destruct (tagName (node d e)); cbn [toLowerCase_of bind]; discriminate.
Qed.

(* ================================================================= *)
(** ** Locators *)

Lemma truthy_some (i : string) : i <> EmptyString -> truthy (Some i) = true.
Proof. destruct i; [congruence | reflexivity]. Qed.

(** C3.  An element with a non-empty id gets the selector [#id] and the
    path [//*[@id="id"]], whatever its classes, tag and place in the tree,
    and without any step towards its ancestors (no fuel is needed). *)
Theorem id_short_circuit (fuel : nat) (d : Document) (e : ref) (i : string) :
  id (node d e) = Some i -> i <> EmptyString ->
  getCssSelector fuel d e = Ok ("#" ++ i)
  /\ getXPath fuel d e = Ok (Some ("//*[@id=" ++ Str.dquote ++ i ++ Str.dquote ++ "]")).
Proof.
  intros Hid Hne. unfold getCssSelector. rewrite getXPath_unfold. cbv zeta.
  rewrite Hid, (truthy_some _ Hne). split; reflexivity.
Qed.

Lemma id_short_circuit_witness :
  id (node Page.doc 8) = Some "main" /\ "main" <> EmptyString
  /\ getCssSelector 0 Page.doc 8 = Ok "#main"
  /\ getXPath 0 Page.doc 8
     = Ok (Some ("//*[@id=" ++ Str.dquote ++ "main" ++ Str.dquote ++ "]")).
Proof.
  split; [reflexivity|]. split; [discriminate|].
  apply (id_short_circuit 0 Page.doc 8 "main"); [reflexivity | discriminate].
Defined.








(** C8.  On a node that has no parent, no id and is not the body,
    [getXPath] returns [undefined]: it does not throw, and it takes no
    recursive step. *)
Theorem getXPath_detached (fuel : nat) (d : Document) (e : ref) :
  parentNode (node d e) = None ->
  truthy (id (node d e)) = false ->
  isBody d e = false ->
  getXPath fuel d e = Ok None.
Proof.
  intros Hp Hid Hbody. rewrite getXPath_unfold. cbv zeta.
  now rewrite Hid, Hbody, Hp.
Qed.

Lemma getXPath_detached_witness : getXPath 0 Page.doc 7 = Ok None.
Proof.
  exact (getXPath_detached 0 Page.doc 7 eq_refl eq_refl eq_refl).
Defined.

(** C4.  On an element without an id: the body gets the constant
    [/html/body]; any other element that has a parent gets the path
    [getXPath] resolves for the parent (an error of that call is passed
    on, [undefined] is spelled out by the concatenation) followed by
    [/tag[k]], where [tag] is the lower-cased tag name and [k] counts the
    element-type siblings of the same tag name before the element, plus
    the element itself. *)
Theorem getXPath_structure (d : Document) (e : ref) :
  truthy (id (node d e)) = false ->
  (isBody d e = true -> forall fuel, getXPath fuel d e = Ok (Some "/html/body"))
  /\ (isBody d e = false ->
      forall (n fuel : nat) (p : ref) (t : string),
        parentNode (node d e) = Some p ->
        In e (childNodes (node d p)) ->
        tagName (node d e) = Some t ->
        rooted d e n -> n <= fuel ->
        getXPath fuel d p <> OutOfFuel
        /\ getXPath fuel d e =
           (up <- getXPath fuel d p ;;
            Ok (Some (interp up ++ "/" ++ Str.toLowerCase t
                      ++ "[" ++ Str.of_nat (Spec.occurrence d e) ++ "]")))).
Proof.
  intro Hid. split.
  - intros Hbody fuel. rewrite getXPath_unfold. cbv zeta. now rewrite Hid, Hbody.
  - intros Hbody n fuel p t Hp Hin Htag Hroot Hle.
    destruct n as [|n]; [rewrite (rooted_top _ _ Hroot) in Hp; discriminate|].
    pose proof (rooted_parent _ _ _ _ Hroot Hp) as Hrp.
    destruct fuel as [|fuel]; [lia|].
    destruct (getXPath_enough n d p fuel Hrp ltac:(lia)) as [Hf Hne].
    destruct (getXPath_enough n d p (S fuel) Hrp ltac:(lia)) as [HSf _].
    split; [now rewrite HSf|].
    rewrite getXPath_unfold with (element := e). cbv zeta.
    rewrite Hid, Hbody, Hp, (xpathScan_found _ _ _ _ Hin), Htag, Hf, HSf.
    unfold Spec.occurrence. rewrite Hp.
    replace (0 + _ + 1) with
      (S (List.length (filter (Spec.sameTag d e) (preceding e (childNodes (node d p))))))
      by lia.
    destruct (getXPath n d p); reflexivity.
Qed.

Lemma getXPath_structure_witness :
  getXPath 4 Page.doc 2 = Ok (Some "/html/body")
  /\ getXPath 4 Page.doc 16 =
     (up <- getXPath 4 Page.doc 13 ;; Ok (Some (interp up ++ "/li[2]"))).
Proof.
  split.
  - exact (proj1 (getXPath_structure Page.doc 2 eq_refl) eq_refl 4).
  - refine (proj2 (proj2 (getXPath_structure Page.doc 16 eq_refl) eq_refl
                     4 4 13 "LI" eq_refl _ eq_refl eq_refl (le_n 4))).
    cbn. right; right; left; reflexivity.
Defined.

(** C9.  For an element of a finite tree, with at most [n] nodes above it,
    both walks terminate: [n] units of fuel, one per move to the parent and
    one per recursive call, are enough for [getCssSelector] and for
    [getXPath], more fuel changes nothing, and each move goes to a node
    with strictly fewer nodes above it. *)
Theorem walks_terminate (d : Document) (e : ref) (n fuel : nat) :
  rooted d e n -> n <= fuel ->
  (getCssSelector fuel d e <> OutOfFuel
   /\ getCssSelector fuel d e = getCssSelector n d e)
  /\ (getXPath fuel d e <> OutOfFuel
      /\ getXPath fuel d e = getXPath n d e)
  /\ (forall p, parentNode (node d e) = Some p ->
                exists m, n = S m /\ rooted d p m).
Proof.
  intros Hroot Hle. repeat split.
  - unfold getCssSelector. cbv zeta.
    destruct (truthy (id _)); [discriminate|].
    destruct (truthy (className _)).
    + destruct (className _); cbn [split_of bind]; [|discriminate].
      destruct (tagName _); cbn [toLowerCase_of bind]; discriminate.
    + destruct (cssPathLoop_enough n d e fuel [] Hroot Hle) as [-> Hne].
      destruct (cssPathLoop n d e []); cbn [bind]; congruence.
  - unfold getCssSelector. cbv zeta.
    destruct (truthy (id _)); [reflexivity|].
    destruct (truthy (className _)); [reflexivity|].
    now destruct (cssPathLoop_enough n d e fuel [] Hroot Hle) as [-> _].
  - destruct (getXPath_enough n d e fuel Hroot Hle) as [-> Hne]. exact Hne.
  - now destruct (getXPath_enough n d e fuel Hroot Hle).
  - intros p Hp. destruct n as [|m].
    + rewrite (rooted_top _ _ Hroot) in Hp; discriminate.
    + exists m; split; [reflexivity | eapply rooted_parent; eauto].
Qed.

Lemma walks_terminate_witness :
  getCssSelector 9 Page.doc 6 = getCssSelector 4 Page.doc 6
  /\ getXPath 9 Page.doc 6 = getXPath 4 Page.doc 6.
Proof.
  pose proof (walks_terminate Page.doc 6 4 9 eq_refl ltac:(repeat constructor)) as H.
  exact (conj (proj2 (proj1 H)) (proj2 (proj1 (proj2 H)))).
Defined.

Lemma cssPathLoop_walk (n : nat) :
  forall (d : Document) (e : ref) (fuel : nat),
    elementsTagged d -> isElement (node d e) = true ->
    rooted d e n -> n <= fuel ->
    exists segs,
      Spec.walk d e segs
      /\ forall path, cssPathLoop fuel d e path = Ok (segs ++ path)%list.
Proof.
  induction n as [|n IH]; intros d e fuel Htagged Helem Hroot Hle.
  - exists []. assert (Hp : parentElement d e = None)
      by (unfold parentElement; now rewrite (rooted_top _ _ Hroot)).
    split; [now constructor|].
    intro path. rewrite cssPathLoop_unfold, Hp. reflexivity.
  - destruct (parentElement d e) as [p|] eqn:Hp.
    + destruct (parentElement_parentNode _ _ _ Hp) as [Hpn Hpe].
      destruct (tagName (node d e)) as [t|] eqn:Htag;
        [|now apply Htagged in Helem].
      destruct (truthy (id (node d e))) eqn:Hid.
      * eexists; split; [eapply Spec.walk_id; eauto|].
        intro path. rewrite cssPathLoop_unfold, Hp, Htag. cbn [toLowerCase_of bind].
        rewrite Hid. reflexivity.
      * destruct fuel as [|fuel]; [lia|].
        destruct (IH d p fuel Htagged Hpe (rooted_parent _ _ _ _ Hroot Hpn)
                    ltac:(lia)) as [segs [Hwalk Hloop]].
        eexists; split; [eapply Spec.walk_up; eauto|].
        intro path.
        rewrite cssPathLoop_unfold, Hp, countSameTag_occurrence, Htag.
        cbn [toLowerCase_of bind].
        rewrite Hid, Hloop, <- app_assoc. reflexivity.
    + exists []. split; [now constructor|].
      intro path. rewrite cssPathLoop_unfold, Hp. reflexivity.
Qed.






(* ================================================================= *)
(** ** The throttle *)

Lemma throttledHandler_appends (h : Handler) :
  throttledHandler h ->
  forall fuel env event t,
    exists record, runHandler h fuel env event t = Ok (push record t).
Proof.
  intros [ -> | [ -> | -> ] ] fuel env event t; eexists; reflexivity.
Qed.

Lemma push_length (record : JSValue) (t : Tracker) :
  List.length (events (push record t)) = List.length (events t) + 1.
Proof. unfold push; cbn. now rewrite length_app. Qed.

Lemma nth_error_setLastCall_same (cs : list Throttled) (c : nat) (cl : Throttled) (stamp : Z) :
  nth_error cs c = Some cl ->
  nth_error (setLastCall c stamp cs) c = Some (mkThrottled (func cl) (delay cl) stamp).
Proof.
  revert c; induction cs as [|x cs IH]; intros [|c]; cbn; try discriminate.
  - now intros [= ->].
  - apply IH.
Qed.




Lemma callListener_wrapped (c : nat) (fuel : nat) (env : Env) (event : Event)
    (w : World) (cl : Throttled) :
  nth_error (closures w) c = Some cl ->
  callListener (Wrapped c) fuel env event w =
  if (delay cl <=? now env - lastCall cl)%Z then
    t <- runHandler (func cl) fuel env event (tracker w) ;;
    Ok (mkWorld t (setLastCall c (now env) (closures w)) (listeners w))
  else Ok w.
Proof. intro H. unfold callListener. now rewrite H. Qed.



(* ================================================================= *)
(** ** Sentinels in the records *)

Lemma blank_falsy (p : prop) : blank p <-> truthy p = false.
Proof.
  split.
  - intros [->| ->]; reflexivity.
  - destruct p as [[|c s]|]; cbn; intro H; try discriminate; [right | left]; reflexivity.
Qed.

Lemma orElse_blank (p : prop) (dflt : string) : blank p -> orElse p dflt = dflt.
Proof. intro H. unfold orElse. apply blank_falsy in H. now rewrite H. Qed.

Lemma substring_opt_blank (n : nat) (p : prop) : blank p -> blank (substring_opt n p).
Proof. intros [->| ->]; [left | right; destruct n]; reflexivity. Qed.

Lemma bind_ok {A B : Type} (r : Result A) (k : A -> Result B) (b : B) :
  bind r k = Ok b -> exists a, r = Ok a /\ k a = Ok b.
Proof. destruct r; cbn; try discriminate. eauto. Qed.

(** C10.  In the record a click or a change stores, each sentinel-guarded
    field of [element] reads ['N/A'] when the property of the element is
    present and empty just as when it is absent: [id], [className],
    [text], [href] and [type] of a click record, [id], [name], [type] and
    [value] of a change record. *)
Theorem empty_field_recorded_as_sentinel :
  (forall (fuel : nat) (env : Env) (event : Event) (t t' : Tracker),
      handleClickEvent fuel env event t = Ok t' ->
      let n := node (document env) (target event) in
      exists record,
        events t' = (events t ++ [record])%list
        /\ let element := getProp "element" record in
           (blank (id n) -> getProp "id" element = JString "N/A")
           /\ (blank (className n) -> getProp "className" element = JString "N/A")
           /\ (blank (innerText n) -> getProp "text" element = JString "N/A")
           /\ (blank (href n) -> getProp "href" element = JString "N/A")
           /\ (blank (type_ n) -> getProp "type" element = JString "N/A"))
  /\ (forall (env : Env) (event : Event) (t t' : Tracker),
        handleChangeEvent env event t = Ok t' ->
        let n := node (document env) (target event) in
        exists record,
          events t' = (events t ++ [record])%list
          /\ let element := getProp "element" record in
             (blank (id n) -> getProp "id" element = JString "N/A")
             /\ (blank (name n) -> getProp "name" element = JString "N/A")
             /\ (blank (type_ n) -> getProp "type" element = JString "N/A")
             /\ (blank (value n) -> getProp "value" element = JString "N/A")).
Proof.
  split.
  - intros fuel env event t t' H n. unfold handleClickEvent in H.
    apply bind_ok in H as [eventObject [_ H]].
    apply bind_ok in H as [tag [_ H]].
    apply bind_ok in H as [css [_ H]].
    apply bind_ok in H as [xpath [_ H]].
    injection H as <-. eexists; split; [reflexivity|].
    fold n. cbn.
    repeat split; intro Hb;
      rewrite orElse_blank by (try apply substring_opt_blank; exact Hb);
      reflexivity.
  - intros env event t t' H n. unfold handleChangeEvent in H.
    apply bind_ok in H as [eventObject [_ H]].
    apply bind_ok in H as [tag [_ H]].
    injection H as <-. eexists; split; [reflexivity|].
    fold n. cbn.
    repeat split; intro Hb;
      rewrite orElse_blank by (try apply substring_opt_blank; exact Hb);
      reflexivity.
Qed.

(* ================================================================= *)
(** ** JSON text: reading back what was written *)

Module JSONFacts.
Import JSON.

Lemma append_assoc (a b c : string) : (a ++ b) ++ c = a ++ (b ++ c).
Proof. induction a as [|x a IH]; cbn; [reflexivity | now rewrite IH]. Qed.

Lemma append_nil_r (a : string) : a ++ EmptyString = a.
Proof. induction a as [|x a IH]; cbn; [reflexivity | now rewrite IH]. Qed.

Lemma length_append (a b : string) :
  String.length (a ++ b) = String.length a + String.length b.
Proof. induction a as [|x a IH]; cbn; [reflexivity | now rewrite IH]. Qed.

(** *** White space *)

Lemma allWs_append (a b : string) : allWs a = true -> allWs b = true -> allWs (a ++ b) = true.
Proof.
  induction a as [|x a IH]; cbn; [auto|].
  intros H Hb. apply andb_true_iff in H as [-> Ha]. cbn. auto.
Qed.

Lemma skipWs_append (ws s : string) : allWs ws = true -> skipWs (ws ++ s) = skipWs s.
Proof.
  induction ws as [|x ws IH]; cbn; [reflexivity|].
  intro H. apply andb_true_iff in H as [-> Hws]. auto.
Qed.

Lemma skipWs_idem (s : string) : skipWs (skipWs s) = skipWs s.
Proof.
  induction s as [|c s IH]; cbn; [reflexivity|].
  destruct (isWs c) eqn:E; [exact IH|]. cbn. now rewrite E.
Qed.

Lemma parseValue_skipWs (fuel : nat) (s : string) :
  parseValue fuel (skipWs s) = parseValue fuel s.
Proof. destruct fuel; cbn; [reflexivity|]. now rewrite skipWs_idem. Qed.

Lemma parseValue_ws (fuel : nat) (ws s : string) :
  allWs ws = true -> parseValue fuel (ws ++ s) = parseValue fuel s.
Proof.
  intro H. rewrite <- parseValue_skipWs, skipWs_append by exact H.
  apply parseValue_skipWs.
Qed.

Lemma parseItems_ws (fuel : nat) (ws s : string) :
  allWs ws = true -> parseItems fuel (ws ++ s) = parseItems fuel s.
Proof. intro H. destruct fuel; cbn; [reflexivity|]. now rewrite parseValue_ws. Qed.

Lemma expect_ws (c : ascii) (ws s : string) :
  allWs ws = true -> expect c (ws ++ s) = expect c s.
Proof. intro H. unfold expect. now rewrite skipWs_append. Qed.

Lemma parseMembers_ws (fuel : nat) (ws s : string) :
  allWs ws = true -> parseMembers fuel (ws ++ s) = parseMembers fuel s.
Proof. intro H. destruct fuel; cbn; [reflexivity|]. now rewrite expect_ws. Qed.

(** *** Strings *)

Lemma parseChars_escapeChar (c : ascii) (tail : string) :
  parseChars (escapeChar c ++ tail) =
  match parseChars tail with
  | Some (chars, after) => Some (String c chars, after)
  | None => None
  end.
Proof.
  destruct c as [[] [] [] [] [] [] [] []]; reflexivity.
Qed.

Lemma parseChars_escapeAll (s rest : string) :
  parseChars (escapeAll s ++ String dq rest) = Some (s, rest).
Proof.
  induction s as [|c s IH]; [reflexivity|].
  cbn [escapeAll]. rewrite append_assoc, parseChars_escapeChar, IH. reflexivity.
Qed.

(** *** Numbers *)

Lemma boundary_digit (rest : string) :
  boundary rest -> spanDigits rest = (Decimal.Nil, rest).
Proof. destruct rest as [|c rest]; cbn; [reflexivity|]. now intros [->| ->]. Qed.

Lemma boundary_fraction (rest : string) : boundary rest -> startsFraction rest = false.
Proof. destruct rest as [|c rest]; cbn; [reflexivity|]. now intros [->| ->]. Qed.

Lemma spanDigits_uint (d : Decimal.uint) (rest : string) :
  boundary rest -> spanDigits (NilEmpty.string_of_uint d ++ rest) = (d, rest).
Proof.
  intro Hb. induction d; cbn; try (rewrite IHd; reflexivity).
  now apply boundary_digit.
Qed.

Lemma uint_beq_refl (d : Decimal.uint) : Decimal.uint_beq d d = true.
Proof. induction d; cbn; auto. Qed.

Lemma splitSign_digits (d : Decimal.uint) (rest : string) :
  d <> Decimal.Nil ->
  splitSign (NilEmpty.string_of_uint d ++ rest)
  = (false, NilEmpty.string_of_uint d ++ rest).
Proof. destruct d; [congruence | reflexivity..]. Qed.

Lemma parseNumber_uint (negative : bool) (d : Decimal.uint) (rest : string) :
  d <> Decimal.Nil -> Decimal.unorm d = d -> boundary rest ->
  parseNumber (NilEmpty.string_of_int (if negative then Decimal.Neg d else Decimal.Pos d)
               ++ rest)
  = Some (JNumber (Int (Z.of_int (if negative then Decimal.Neg d else Decimal.Pos d))),
          rest).
Proof.
  intros Hnil Hnorm Hb. unfold parseNumber.
  assert (Hsign : splitSign
                    (NilEmpty.string_of_int
                       (if negative then Decimal.Neg d else Decimal.Pos d) ++ rest)
                  = (negative, NilEmpty.string_of_uint d ++ rest)).
  { destruct negative; [reflexivity | now apply splitSign_digits]. }
  rewrite Hsign, (spanDigits_uint d rest Hb), Hnorm, uint_beq_refl,
    (boundary_fraction _ Hb).
  destruct d; [congruence | reflexivity..].
Qed.

Lemma to_uint_normal (p : positive) : Decimal.unorm (Pos.to_uint p) = Pos.to_uint p.
Proof.
  rewrite <- (DecimalPos.Unsigned.to_of (Pos.to_uint p)).
  now rewrite DecimalPos.Unsigned.of_to.
Qed.

Lemma parseNumber_numberToString (z : Z) (rest : string) :
  boundary rest ->
  parseNumber (numberToString z ++ rest) = Some (JNumber (Int z), rest).
Proof.
  intro Hb. unfold numberToString.
  rewrite <- (DecimalZ.of_to z) at 2.
  destruct z as [|p|p]; cbn [Z.to_int].
  - apply (parseNumber_uint false Decimal.zero rest); [discriminate | reflexivity | exact Hb].
  - apply (parseNumber_uint false (Pos.to_uint p) rest);
      [apply DecimalPos.Unsigned.to_uint_nonnil | apply to_uint_normal | exact Hb].
  - apply (parseNumber_uint true (Pos.to_uint p) rest);
      [apply DecimalPos.Unsigned.to_uint_nonnil | apply to_uint_normal | exact Hb].
Qed.

(** *** Heads of values *)

Lemma headed_append (good : ascii -> bool) (s rest : string) :
  headed good s -> headed good (s ++ rest).
Proof. destruct s; [intros [] | exact (fun H => H)]. Qed.

Lemma numberToString_head (z : Z) : headed numHead (numberToString z).
Proof.
  unfold numberToString. destruct z as [|p|p]; cbn [Z.to_int NilEmpty.string_of_int].
  - reflexivity.
  - pose proof (DecimalPos.Unsigned.to_uint_nonnil p) as H.
    destruct (Pos.to_uint p); [congruence | reflexivity..].
  - reflexivity.
Qed.

Lemma parseValue_number (fuel : nat) (s : string) :
  headed numHead s -> parseValue (S fuel) s = parseNumber s.
Proof.
  destruct s as [|c s]; [intros []|]. cbn [headed].
  destruct c as [[] [] [] [] [] [] [] []]; cbn; intro H;
    try discriminate H; reflexivity.
Qed.

Lemma skipWs_valueHead (s : string) : headed valueHead s -> skipWs s = s.
Proof.
  destruct s as [|c s]; [intros []|]. cbn [headed].
  destruct c as [[] [] [] [] [] [] [] []]; cbn; intro H;
    try discriminate H; reflexivity.
Qed.

Lemma expect_valueHead (s : string) :
  headed valueHead s -> expect "]" s = None /\ expect "}" s = None.
Proof.
  destruct s as [|c s]; [intros []|]. cbn [headed].
  destruct c as [[] [] [] [] [] [] [] []]; cbn; intro H;
    try discriminate H; split; reflexivity.
Qed.

Lemma serialize_head (indent : string) (v : JSValue) (text : string) :
  serializeJSONProperty indent v = Some text -> headed valueHead text.
Proof.
  destruct v as [| |[]|[z|]|s|items|fields]; cbn; try discriminate;
    intros [= <-]; try reflexivity.
  - pose proof (numberToString_head z) as H.
    destruct (numberToString z) as [|c tail]; [destruct H|].
    cbn in *. unfold valueHead. now rewrite H.
  - destruct (map _ items); reflexivity.
  - destruct (flat_map _ fields); reflexivity.
Qed.

Lemma serialize_undefined (indent : string) (v : JSValue) :
  serializeJSONProperty indent v = None -> v = JUndefined.
Proof. destruct v as [| |[]|[z|]|s|items|fields]; cbn; congruence. Qed.

(** *** Leaves *)

Lemma parseValue_null (fuel : nat) (rest : string) :
  parseValue (S fuel) ("null" ++ rest) = Some (JNull, rest).
Proof. reflexivity. Qed.

Lemma parseValue_bool (fuel : nat) (b : bool) (rest : string) :
  parseValue (S fuel) ((if b then "true" else "false") ++ rest) = Some (JBool b, rest).
Proof. destruct b; reflexivity. Qed.

Lemma parseValue_string (fuel : nat) (s rest : string) :
  parseValue (S fuel) (quoteJSONString s ++ rest) = Some (JString s, rest).
Proof.
  unfold quoteJSONString. cbn [append].
  rewrite append_assoc. cbn [append].
  change (parseValue (S fuel) (String dq (escapeAll s ++ String dq rest)))
    with (match parseChars (escapeAll s ++ String dq rest) with
          | Some (chars, after) => Some (JString chars, after)
          | None => None
          end).
  now rewrite parseChars_escapeAll.
Qed.

Lemma parseValue_numberToString (fuel : nat) (z : Z) (rest : string) :
  boundary rest ->
  parseValue (S fuel) (numberToString z ++ rest) = Some (JNumber (Int z), rest).
Proof.
  intro Hb. rewrite parseValue_number.
  - now apply parseNumber_numberToString.
  - apply headed_append, numberToString_head.
Qed.

(** *** Items and members *)

Lemma join_joined (sep : string) (parts : list string) (tail : string) :
  Str.join sep parts ++ tail = joined sep parts tail.
Proof.
  induction parts as [|p parts IH]; [reflexivity|].
  destruct parts as [|q rest]; [reflexivity|].
  change (Str.join sep (p :: q :: rest)) with (p ++ sep ++ Str.join sep (q :: rest)).
  change (joined sep (p :: q :: rest) tail)
    with (p ++ sep ++ joined sep (q :: rest) tail).
  now rewrite !append_assoc, IH.
Qed.

Lemma joined_cons (sep p : string) (rest : list string) (tail : string) :
  joined sep (p :: rest) tail =
  p ++ match rest with
       | [] => tail
       | _ :: _ => sep ++ joined sep rest tail
       end.
Proof. destruct rest; reflexivity. Qed.

Lemma itemText_reads (indent : string) (item : JSValue) (rest : string) (fuel : nat) :
  readsBack indent item -> boundary rest ->
  2 * String.length (itemText indent item ++ rest) < fuel ->
  parseValue fuel (itemText indent item ++ rest) = Some (revive item, rest).
Proof.
  intros IH Hb Hfuel. unfold itemText in *.
  destruct (serializeJSONProperty indent item) as [strP|] eqn:E.
  - now apply IH.
  - apply serialize_undefined in E as ->.
    destruct fuel; [lia | reflexivity].
Qed.

Lemma parseItems_joined (indent stepback : string) (items : list JSValue) :
  allWs indent = true -> allWs stepback = true ->
  Forall (readsBack indent) items -> items <> [] ->
  forall (rest : string) (fuel : nat),
    let sep := "," ++ nl ++ indent in
    let text := joined sep (map (itemText indent) items)
                  (nl ++ stepback ++ "]" ++ rest) in
    2 * String.length text + 1 < fuel ->
    parseItems fuel text = Some (map revive items, rest).
Proof.
  intros Hind Hstep HF. induction HF as [|x xs Hx _ IH]; [congruence|].
  intros _ rest fuel sep text Hfuel. unfold text in *. clear text.
  destruct fuel as [|fuel]; [lia|].
  cbn [parseItems].
  destruct xs as [|y ys].
  - change (joined sep (map (itemText indent) [x]) (nl ++ stepback ++ "]" ++ rest))
      with (itemText indent x ++ nl ++ stepback ++ "]" ++ rest) in *.
    rewrite (itemText_reads indent x _ fuel Hx); [|now right|lia].
    unfold nl. cbn [append].
    change (skipWs (String "010" (stepback ++ String "]" rest)))
      with (skipWs (stepback ++ String "]" rest)).
    rewrite skipWs_append by exact Hstep. reflexivity.
  - set (more := joined sep (map (itemText indent) (y :: ys))
                   (nl ++ stepback ++ "]" ++ rest)) in *.
    change (joined sep (map (itemText indent) (x :: y :: ys))
              (nl ++ stepback ++ "]" ++ rest))
      with (itemText indent x ++ sep ++ more) in *.
    assert (Hlen : String.length (itemText indent x ++ sep ++ more)
                   = String.length (itemText indent x) + 2
                     + String.length indent + String.length more).
    { unfold sep, nl. rewrite !length_append. cbn [String.length]. lia. }
    rewrite (itemText_reads indent x _ fuel Hx); [|now left|lia].
    change (skipWs (sep ++ more)) with (String "," ((nl ++ indent) ++ more)).
    cbv beta iota.
    change (Ascii.eqb "," ",") with true. cbv iota.
    rewrite (parseItems_ws fuel (nl ++ indent) more)
      by (apply allWs_append; [reflexivity | exact Hind]).
    pose proof (IH ltac:(discriminate) rest fuel) as IH'.
    cbv zeta in IH'. fold sep in IH'. fold more in IH'.
    rewrite IH'; [reflexivity | lia].
Qed.

Lemma parseMembers_step (fuel : nat) (k strP : string) (v : JSValue) (tail : string) :
  parseValue fuel (strP ++ tail) = Some (v, tail) ->
  parseMembers (S fuel) ((quoteJSONString k ++ ": " ++ strP) ++ tail) =
  match skipWs tail with
  | EmptyString => None
  | String c s5 =>
      if Ascii.eqb c "," then
        match parseMembers fuel s5 with
        | Some (more, after) => Some ((k, v) :: more, after)
        | None => None
        end
      else if Ascii.eqb c "}" then Some ([(k, v)], s5)
      else None
  end.
Proof.
  intro Hv. unfold quoteJSONString.
  rewrite !append_assoc. cbn [append]. rewrite !append_assoc. cbn [append].
  cbn [parseMembers].
  change (expect dq (String dq ?s)) with (Some s).
  cbv beta iota.
  rewrite parseChars_escapeAll.
  change (expect ":" (String ":" ?s)) with (Some s).
  cbv beta iota.
  change (String " " (strP ++ tail)) with (" " ++ (strP ++ tail)).
  rewrite (parseValue_ws fuel " " (strP ++ tail) eq_refl), Hv.
  reflexivity.
Qed.

Lemma reviveMember_defined (indent : string) (kv : string * JSValue) (strP : string) :
  serializeJSONProperty indent (snd kv) = Some strP ->
  reviveMember kv = [(fst kv, revive (snd kv))].
Proof.
  unfold reviveMember. destruct (snd kv); cbn; try discriminate; reflexivity.
Qed.

Lemma reviveMember_none (indent : string) (fields : list (string * JSValue)) :
  flat_map (memberText indent) fields = [] -> flat_map reviveMember fields = [].
Proof.
  induction fields as [|kv fields IH]; [reflexivity|]. cbn [flat_map].
  unfold memberText at 1.
  destruct (serializeJSONProperty indent (snd kv)) eqn:E; [discriminate|].
  apply serialize_undefined in E. cbn [app]. intro H.
  unfold reviveMember at 1. rewrite E. cbn [app]. auto.
Qed.

Lemma parseMembers_joined (indent stepback : string) (fields : list (string * JSValue)) :
  allWs indent = true -> allWs stepback = true ->
  Forall (fun kv => readsBack indent (snd kv)) fields ->
  flat_map (memberText indent) fields <> [] ->
  forall (rest : string) (fuel : nat),
    let sep := "," ++ nl ++ indent in
    let text := joined sep (flat_map (memberText indent) fields)
                  (nl ++ stepback ++ "}" ++ rest) in
    2 * String.length text + 1 < fuel ->
    parseMembers fuel text = Some (flat_map reviveMember fields, rest).
Proof.
  intros Hind Hstep HF.
  induction HF as [|kv fs Hkv _ IH]; [intro H; exfalso; now apply H|].
  cbn [flat_map].
  destruct (serializeJSONProperty indent (snd kv)) as [strP|] eqn:E.
  2:{ assert (Hmt : memberText indent kv = [])
        by (unfold memberText; now rewrite E).
      rewrite Hmt. apply serialize_undefined in E.
      unfold reviveMember at 1. rewrite E. cbn [app]. exact IH. }
  assert (Hmt : memberText indent kv = [quoteJSONString (fst kv) ++ ": " ++ strP])
    by (unfold memberText; now rewrite E).
  rewrite Hmt, (reviveMember_defined _ _ _ E). cbn [app].
  intros _ rest fuel. cbv zeta. intro Hfuel.
  set (sep := "," ++ nl ++ indent) in *.
  destruct fuel as [|fuel]; [lia|].
  set (m := quoteJSONString (fst kv) ++ ": " ++ strP) in *.
  assert (Hm : String.length m
               = String.length (quoteJSONString (fst kv)) + 2 + String.length strP).
  { unfold m. rewrite !length_append. cbn [String.length]. lia. }
  destruct (flat_map (memberText indent) fs) as [|m' ms] eqn:Hms.
  - rewrite (reviveMember_none _ _ Hms).
    change (joined sep [m] (nl ++ stepback ++ "}" ++ rest))
      with (m ++ nl ++ stepback ++ "}" ++ rest) in *.
    rewrite length_append in Hfuel.
    unfold m. rewrite (parseMembers_step fuel _ strP (revive (snd kv))).
    + unfold nl. cbn [append].
      change (skipWs (String "010" (stepback ++ String "}" rest)))
        with (skipWs (stepback ++ String "}" rest)).
      rewrite skipWs_append by exact Hstep. reflexivity.
    + apply Hkv; [exact E | now right | rewrite length_append; lia].
  - set (more := joined sep (m' :: ms) (nl ++ stepback ++ "}" ++ rest)) in *.
    change (joined sep (m :: m' :: ms) (nl ++ stepback ++ "}" ++ rest))
      with (m ++ sep ++ more) in *.
    assert (Hlen : String.length (m ++ sep ++ more)
                   = String.length m + 2 + String.length indent + String.length more).
    { unfold sep, nl. rewrite !length_append. cbn [String.length]. lia. }
    unfold m. rewrite (parseMembers_step fuel _ strP (revive (snd kv))).
    + change (skipWs (sep ++ more)) with (String "," ((nl ++ indent) ++ more)).
      cbv beta iota.
      change (Ascii.eqb "," ",") with true. cbv iota.
      rewrite (parseMembers_ws fuel (nl ++ indent) more)
        by (apply allWs_append; [reflexivity | exact Hind]).
      pose proof (IH ltac:(discriminate) rest fuel) as IH'.
      cbv zeta in IH'. fold sep in IH'. fold more in IH'.
      rewrite IH'; [reflexivity | lia].
    + apply Hkv; [exact E | now left |].
      fold m in Hlen. rewrite length_append.
      unfold sep, nl in *. rewrite !length_append in *. cbn [String.length] in *. lia.
Qed.

Lemma serialize_array_cons (indent : string) (x : JSValue) (xs : list JSValue)
    (text rest : string) :
  serializeJSONProperty indent (JArray (x :: xs)) = Some text ->
  text ++ rest =
  String "[" ((nl ++ indent ++ gap)
              ++ joined ("," ++ nl ++ indent ++ gap)
                   (map (itemText (indent ++ gap)) (x :: xs))
                   (nl ++ indent ++ "]" ++ rest)).
Proof.
  intro H. rewrite <- join_joined.
  set (J := Str.join ("," ++ nl ++ indent ++ gap)
              (map (itemText (indent ++ gap)) (x :: xs))).
  assert (Ht : Some text
               = Some ("[" ++ nl ++ (indent ++ gap) ++ J ++ nl ++ indent ++ "]"))
    by (rewrite <- H; reflexivity).
  inversion Ht as [Ht']. clear Ht H Ht'.
  unfold nl. repeat (rewrite ?append_assoc; cbn [append]). reflexivity.
Qed.

Lemma serialize_object_cons (indent : string) (fields : list (string * JSValue))
    (m : string) (ms : list string) (text rest : string) :
  flat_map (memberText (indent ++ gap)) fields = m :: ms ->
  serializeJSONProperty indent (JObject fields) = Some text ->
  text ++ rest =
  String "{" ((nl ++ indent ++ gap)
              ++ joined ("," ++ nl ++ indent ++ gap) (m :: ms)
                   (nl ++ indent ++ "}" ++ rest)).
Proof.
  intros Hms H. rewrite <- join_joined.
  set (J := Str.join ("," ++ nl ++ indent ++ gap) (m :: ms)).
  assert (Ht : Some text
               = Some ("{" ++ nl ++ (indent ++ gap) ++ J ++ nl ++ indent ++ "}")).
  { rewrite <- H. cbn [serializeJSONProperty].
    change (flat_map _ fields) with (flat_map (memberText (indent ++ gap)) fields).
    rewrite Hms. reflexivity. }
  inversion Ht as [Ht']. clear Ht H Ht'.
  unfold nl. repeat (rewrite ?append_assoc; cbn [append]). reflexivity.
Qed.

Lemma serialize_object_nil (indent : string) (fields : list (string * JSValue))
    (text : string) :
  flat_map (memberText (indent ++ gap)) fields = [] ->
  serializeJSONProperty indent (JObject fields) = Some text ->
  text = "{}".
Proof.
  intros Hms [= <-].
  change (flat_map _ fields) with (flat_map (memberText (indent ++ gap)) fields).
  now rewrite Hms.
Qed.

Lemma revive_object (fields : list (string * JSValue)) :
  revive (JObject fields) = JObject (flat_map reviveMember fields).
Proof. reflexivity. Qed.

Lemma parseValue_array (fuel : nat) (s : string) :
  parseValue (S fuel) (String "[" s) =
  match expect "]" s with
  | Some after => Some (JArray [], after)
  | None =>
      match parseItems fuel s with
      | Some (items, after) => Some (JArray items, after)
      | None => None
      end
  end.
Proof. reflexivity. Qed.

Lemma parseValue_object (fuel : nat) (s : string) :
  parseValue (S fuel) (String "{" s) =
  match expect "}" s with
  | Some after => Some (JObject [], after)
  | None =>
      match parseMembers fuel s with
      | Some (fields, after) => Some (JObject fields, after)
      | None => None
      end
  end.
Proof. reflexivity. Qed.

Lemma serialize_reads_back (v : JSValue) :
  forall indent, allWs indent = true -> readsBack indent v.
Proof.
  induction v as [| |b|n|s|items IH|fields IH] using JSValue_nested_ind;
    intros indent Hind text rest fuel Hser Hb Hfuel;
    (destruct fuel as [|fuel]; [lia|]).
  - discriminate.
  - injection Hser as <-. reflexivity.
  - injection Hser as <-. apply parseValue_bool.
  - destruct n as [z|]; injection Hser as <-.
    + now apply parseValue_numberToString.
    + reflexivity.
  - injection Hser as <-. apply parseValue_string.
  - destruct items as [|x xs]; [injection Hser as <-; reflexivity|].
    assert (Hind' : allWs (indent ++ gap) = true)
      by (apply allWs_append; [exact Hind | reflexivity]).
    assert (Hws : allWs (nl ++ indent ++ gap) = true)
      by (apply allWs_append; [reflexivity | exact Hind']).
    rewrite (serialize_array_cons _ _ _ _ rest Hser) in *.
    set (sep := "," ++ nl ++ indent ++ gap) in *.
    set (body := joined sep (map (itemText (indent ++ gap)) (x :: xs))
                   (nl ++ indent ++ "]" ++ rest)) in *.
    assert (Hhead : headed valueHead body).
    { unfold body. cbn [map]. rewrite joined_cons.
      apply headed_append. unfold itemText.
      destruct (serializeJSONProperty _ x) eqn:E;
        [eapply serialize_head; eauto | reflexivity]. }
    rewrite parseValue_array, expect_ws, (proj1 (expect_valueHead _ Hhead)),
      parseItems_ws by exact Hws.
    pose proof (parseItems_joined (indent ++ gap) indent (x :: xs) Hind' Hind)
      as Hitems.
    cbv zeta in Hitems. fold sep in Hitems.
    unfold body.
    assert (IH' : Forall (readsBack (indent ++ gap)) (x :: xs))
      by (eapply Forall_impl; [|exact IH]; intros a H; exact (H _ Hind')).
    rewrite (Hitems IH'
               ltac:(discriminate) rest fuel); [reflexivity|].
    fold body. cbn [String.length] in Hfuel. rewrite length_append in Hfuel. lia.
  - assert (Hind' : allWs (indent ++ gap) = true)
      by (apply allWs_append; [exact Hind | reflexivity]).
    assert (Hws : allWs (nl ++ indent ++ gap) = true)
      by (apply allWs_append; [reflexivity | exact Hind']).
    rewrite revive_object.
    destruct (flat_map (memberText (indent ++ gap)) fields) as [|m ms] eqn:Hms.
    { rewrite (serialize_object_nil _ _ _ Hms Hser), (reviveMember_none _ _ Hms).
      reflexivity. }
    rewrite (serialize_object_cons _ _ _ _ _ rest Hms Hser) in *.
    set (sep := "," ++ nl ++ indent ++ gap) in *.
    set (body := joined sep (m :: ms) (nl ++ indent ++ "}" ++ rest)) in *.
    assert (Hhead : headed valueHead body).
    { unfold body. rewrite joined_cons. apply headed_append.
      assert (Hm : In m (flat_map (memberText (indent ++ gap)) fields))
        by (rewrite Hms; now left).
      apply in_flat_map in Hm as [kv [_ Hm]]. unfold memberText in Hm.
      destruct (serializeJSONProperty _ (snd kv)); [|destruct Hm].
      destruct Hm as [<-|[]]. reflexivity. }
    rewrite parseValue_object, expect_ws, (proj2 (expect_valueHead _ Hhead)),
      parseMembers_ws by exact Hws.
    pose proof (parseMembers_joined (indent ++ gap) indent fields Hind' Hind)
      as Hmembers.
    cbv zeta in Hmembers. fold sep in Hmembers. rewrite Hms in Hmembers.
    unfold body.
    assert (IH' : Forall (fun kv => readsBack (indent ++ gap) (snd kv)) fields)
      by (eapply Forall_impl; [|exact IH]; intros a H; exact (H _ Hind')).
    rewrite (Hmembers IH'
               ltac:(discriminate) rest fuel); [reflexivity|].
    fold body. cbn [String.length] in Hfuel. rewrite length_append in Hfuel. lia.
Qed.

(** Whatever [JSON.stringify] writes, [JSON.parse] reads back. *)
Theorem parse_stringify (v : JSValue) (text : string) :
  stringify v = Some text -> parse text = Some (revive v).
Proof.
  intro H. unfold parse.
  pose proof (serialize_reads_back v EmptyString eq_refl text EmptyString
                (2 * String.length text + 2) H I) as Hread.
  rewrite append_nil_r in Hread. rewrite Hread; [reflexivity | lia].
Qed.

End JSONFacts.

(** C6.  For every state of the tracker, [exportEventsAsJSON] returns a
    text that [JSON.parse] accepts, and the document read back has an
    [events] array with as many records as the tracker holds and a
    [session] whose [sessionId] is the one of the tracker ([null] before
    initialisation). *)
Theorem export_round_trip (env : Env) (t : Tracker) :
  exists text doc,
    exportEventsAsJSON env t = Some text
    /\ JSON.parse text = Some doc
    /\ (exists records,
          getProp "events" doc = JArray records
          /\ List.length records = List.length (events t))
    /\ getProp "sessionId" (getProp "session" doc)
       = nullable (sessionId (session t)).
Proof.
  destruct (exportEventsAsJSON env t) as [text|] eqn:Hexport;
    [|discriminate Hexport].
  exists text, (JSON.revive (exportData env t)).
  split; [reflexivity|].
  split; [now apply JSONFacts.parse_stringify|].
  split.
  - exists (map JSON.revive (events t)). split; [reflexivity | apply length_map].
  - destruct t as [evs [[sid|] [start|] url agent screen view] cfg]; reflexivity.
Qed.

(* ================================================================= *)
(** ** The properties on the small page *)


Lemma empty_field_recorded_as_sentinel_witness :
  (exists record,
      events Page.afterClick = [record]
      /\ getProp "className" (getProp "element" record) = JString "N/A"
      /\ getProp "href" (getProp "element" record) = JString "N/A")
  /\ (exists record,
        events Page.afterChange = [record]
        /\ getProp "id" (getProp "element" record) = JString "N/A"
        /\ getProp "value" (getProp "element" record) = JString "N/A").
Proof.
  split.
  - destruct (proj1 empty_field_recorded_as_sentinel 4 (Page.env 1762142401000)
                (Page.eventOn 6) Page.tracker0 Page.afterClick eq_refl)
      as [record [Hevents [_ [Hclass [_ [Hhref _]]]]]].
    exists record. split; [exact Hevents|].
    split; [apply Hclass; right; reflexivity | apply Hhref; left; reflexivity].
  - destruct (proj2 empty_field_recorded_as_sentinel (Page.env 1762142401000)
                (Page.eventOn 6) Page.tracker0 Page.afterChange eq_refl)
      as [record [Hevents [Hid [_ [_ Hvalue]]]]].
    exists record. split; [exact Hevents|].
    split; [apply Hid; right; reflexivity | apply Hvalue; left; reflexivity].
Defined.

(* ################################################################# *)
(** * The rest of the script *)

(* ================================================================= *)
(** ** What a handler does to the tracker *)

Lemma getEventObjectType_label (n : Node) (label : string) :
  getEventObjectType n = Ok label -> In label Spec.labels.
Proof.
  unfold getEventObjectType.
  destruct (toLowerCase_of (tagName n)) as [tag| |]; cbn [bind]; try discriminate.
  destruct (option_map Str.toLowerCase (type_ n)) as [type|];
    repeat match goal with
           | |- context [if ?b then _ else _] => destruct b
           end;
    intros [= <-]; pick_label.
Qed.

Ltac open_handler H :=
  repeat (apply bind_ok in H as [? [? H]]);
  repeat match type of H with
         | (if ?b then _ else _) = Ok _ => destruct b eqn:?
         | bind _ _ = Ok _ => apply bind_ok in H as [? [? H]]
         end;
  injection H as <-.

Lemma runHandler_effect (h : Handler) (fuel : nat) (env : Env) (event : Event)
    (t t' : Tracker) :
  runHandler h fuel env event t = Ok t' ->
  t' = t \/ exists record, t' = push record t /\ stamped env h record.
Proof.
  intro H. destruct h; cbn [runHandler] in H;
    unfold handleClickEvent, handleHoverEvent, handleScrollEvent, handleFocusEvent,
      handleBlurEvent, handleChangeEvent, handleSubmitEvent, handleKeyboardEvent,
      handleMouseMoveEvent, handleResizeEvent in H;
    open_handler H; auto; right; eexists; (split; [reflexivity|]);
    (split; [reflexivity|]); (split; [reflexivity|]);
    eexists; (split; [reflexivity|]);
    try (eapply getEventObjectType_label; eassumption); pick_label.
Qed.

Lemma runHandler_frame (h : Handler) (fuel : nat) (env : Env) (event : Event)
    (t t' : Tracker) :
  runHandler h fuel env event t = Ok t' ->
  session t' = session t /\ config t' = config t.
Proof.
  intro H. destruct (runHandler_effect _ _ _ _ _ _ H) as [->|[record [-> _]]];
    split; reflexivity.
Qed.

(** X1.  A handler that returns has left the session and the
    configuration as they were, and has either left the events as they
    were or appended exactly one record, stamped with the clock reading,
    with the kind of the handler and with a label of the enumeration. *)
Theorem handler_appends_one_stamped_record (h : Handler) (fuel : nat) (env : Env)
    (event : Event) (t t' : Tracker) :
  runHandler h fuel env event t = Ok t' ->
  session t' = session t /\ config t' = config t
  /\ (events t' = events t
      \/ exists record,
           events t' = (events t ++ [record])%list /\ stamped env h record).
Proof.
  intro H. destruct (runHandler_frame _ _ _ _ _ _ H) as [Hs Hc].
  split; [exact Hs|]. split; [exact Hc|].
  destruct (runHandler_effect _ _ _ _ _ _ H) as [->|[record [-> Hst]]];
    [left; reflexivity | right; exists record; split; [reflexivity | exact Hst]].
Qed.

Lemma handler_appends_one_stamped_record_witness :
  exists record,
    events Page.afterClick = [record]
    /\ getProp "type_of_event" record = JString "CLICK".
Proof.
  destruct (handler_appends_one_stamped_record HandleClick 4 (Page.env 1762142401000)
              (Page.eventOn 6) Page.tracker0 Page.afterClick eq_refl)
    as [_ [_ [Hsame|[record [Hev [_ [Hkind _]]]]]]].
  - discriminate Hsame.
  - exists record. split; [exact Hev | exact Hkind].
Defined.

(* ================================================================= *)
(** ** What a dispatch does to the world *)

Lemma setLastCall_length (c : nat) (stamp : Z) (cs : list Throttled) :
  List.length (setLastCall c stamp cs) = List.length cs.
Proof.
  revert c; induction cs as [|x cs IH]; intros [|c]; cbn; auto.
Qed.

Lemma callListener_effect (l : Listener) (fuel : nat) (env : Env) (event : Event)
    (w w' : World) :
  callListener l fuel env event w = Ok w' ->
  listeners w' = listeners w
  /\ List.length (closures w') = List.length (closures w)
  /\ (tracker w' = tracker w
      \/ exists h, runHandler h fuel env event (tracker w) = Ok (tracker w')).
Proof.
  destruct l as [h|c]; cbn [callListener].
  - intro H. apply bind_ok in H as [t [Ht H]]. injection H as <-. cbn.
    repeat split. right. now exists h.
  - destruct (nth_error (closures w) c) as [cl|]; [|discriminate].
    destruct (delay cl <=? now env - lastCall cl)%Z.
    + intro H. apply bind_ok in H as [t [Ht H]]. injection H as <-. cbn.
      split; [reflexivity|]. split; [apply setLastCall_length|].
      right. now exists (func cl).
    + intros [= <-]. repeat split. now left.
Qed.

Lemma callListeners_effect (ls : list (string * Listener)) (type : string)
    (fuel : nat) (env : Env) (event : Event) :
  forall w w',
    callListeners ls type fuel env event w = Ok w' ->
    listeners w' = listeners w
    /\ List.length (closures w') = List.length (closures w)
    /\ session (tracker w') = session (tracker w)
    /\ config (tracker w') = config (tracker w)
    /\ exists new,
         events (tracker w') = (events (tracker w) ++ new)%list
         /\ List.length new <= List.length ls
         /\ Forall (fun record => exists h, stamped env h record) new.
Proof.
  induction ls as [|[type' l] ls IH]; intros w w' H; cbn [callListeners] in H.
  - injection H as <-. repeat split. exists []. rewrite app_nil_r.
    repeat split; [cbn; lia | constructor].
  - destruct (String.eqb type' type).
    + apply bind_ok in H as [w1 [H1 H]].
      destruct (callListener_effect _ _ _ _ _ _ H1) as [Hl1 [Hc1 Ht1]].
      destruct (IH _ _ H) as [Hl [Hc [Hs [Hcfg [new [Hev [Hlen Hst]]]]]]].
      split; [congruence|]. split; [congruence|].
      destruct Ht1 as [Hsame|[h Hh]].
      * rewrite Hsame in *. split; [exact Hs|]. split; [exact Hcfg|].
        exists new. repeat split; [exact Hev | cbn; lia | exact Hst].
      * destruct (runHandler_frame _ _ _ _ _ _ Hh) as [Hs1 Hcfg1].
        split; [congruence|]. split; [congruence|].
        destruct (runHandler_effect _ _ _ _ _ _ Hh) as [Hsame|[record [Hpush Hrec]]].
        -- rewrite Hsame in *. exists new.
           repeat split; [exact Hev | cbn; lia | exact Hst].
        -- exists (record :: new). rewrite Hev, Hpush. cbn [events push].
           rewrite <- app_assoc. repeat split; [cbn; lia|].
           constructor; [now exists h | exact Hst].
    + destruct (IH _ _ H) as [Hl [Hc [Hs [Hcfg [new [Hev [Hlen Hst]]]]]]].
      repeat split; try assumption.
      exists new. repeat split; [exact Hev | cbn; lia | exact Hst].
Qed.

(** X2.  A dispatch that returns has only appended to the events: the
    records held before are still there, in their order, followed by at
    most one new stamped record per registered listener; the session, the
    configuration, the listener table and the number of closures are as
    before. *)
Theorem dispatch_appends_only (type : string) (fuel : nat) (env : Env)
    (event : Event) (w w' : World) :
  dispatch type fuel env event w = Ok w' ->
  listeners w' = listeners w
  /\ List.length (closures w') = List.length (closures w)
  /\ session (tracker w') = session (tracker w)
  /\ config (tracker w') = config (tracker w)
  /\ exists new,
       events (tracker w') = (events (tracker w) ++ new)%list
       /\ List.length new <= List.length (listeners w)
       /\ Forall (fun record => exists h, stamped env h record) new.
Proof. apply callListeners_effect. Qed.

Lemma callListeners_preserves (P : Tracker -> Prop) (env : Env) (event : Event)
    (fuel : nat) :
  (forall h t t', runHandler h fuel env event t = Ok t' -> P t -> P t') ->
  forall ls type w w',
    callListeners ls type fuel env event w = Ok w' ->
    P (tracker w) -> P (tracker w').
Proof.
  intros Hstep ls type. induction ls as [|[type' l] ls IH]; intros w w' H HP;
    cbn [callListeners] in H.
  - now injection H as <-.
  - destruct (String.eqb type' type); [|eauto].
    apply bind_ok in H as [w1 [H1 H]].
    apply (IH _ _ H).
    destruct (callListener_effect _ _ _ _ _ _ H1) as [_ [_ [->|[h Hh]]]]; eauto.
Qed.

(* ================================================================= *)
(** ** What is never stored *)

Lemma includes_In (l : list string) (s : string) : includes l s = true -> In s l.
Proof.
  unfold includes. intro H. apply existsb_exists in H as [x [Hin Heq]].
  apply String.eqb_eq in Heq. now subst.
Qed.

Lemma Forall_push (P : JSValue -> Prop) (record : JSValue) (t : Tracker) :
  Forall P (events t) -> P record -> Forall P (events (push record t)).
Proof.
  intros Hall Hrec. unfold push; cbn. apply Forall_app. split; [exact Hall|].
  constructor; [exact Hrec | constructor].
Qed.

Ltac unfold_handlers H :=
  cbn [runHandler] in H;
  unfold handleClickEvent, handleHoverEvent, handleScrollEvent, handleFocusEvent,
    handleBlurEvent, handleChangeEvent, handleSubmitEvent, handleKeyboardEvent,
    handleMouseMoveEvent, handleResizeEvent in H.

Lemma runHandler_keySafe (h : Handler) (fuel : nat) (env : Env) (event : Event)
    (t t' : Tracker) :
  runHandler h fuel env event t = Ok t' ->
  Forall keySafe (events t) -> Forall keySafe (events t').
Proof.
  intros H Hall. destruct h; unfold_handlers H; open_handler H; auto;
    apply Forall_push; try exact Hall; intro Hkind; try discriminate Hkind.
  exists (key event). split; [reflexivity|].
  apply includes_In. now apply negb_false_iff.
Qed.

Lemma runHandler_targetSafe (h : Handler) (fuel : nat) (env : Env) (event : Event)
    (t t' : Tracker) :
  runHandler h fuel env event t = Ok t' ->
  Forall targetSafe (events t) -> Forall targetSafe (events t').
Proof.
  intros H Hall. destruct h; unfold_handlers H; open_handler H; auto;
    apply Forall_push; try exact Hall;
    (split; [intro Hkind | intros [Hkind|Hkind]]); try discriminate Hkind;
    (eexists; split; [reflexivity|]; apply includes_In; now apply negb_false_iff).
Qed.

(** X3.  No ordinary key is ever stored: when every key-press record held
    so far names one of Enter, Escape, Tab, Backspace and Delete, so does
    every one after any dispatch; and a key press outside those five
    leaves the tracker exactly as it was. *)
Theorem only_special_keys_stored :
  (forall (type : string) (fuel : nat) (env : Env) (event : Event) (w w' : World),
      dispatch type fuel env event w = Ok w' ->
      Forall keySafe (events (tracker w)) ->
      Forall keySafe (events (tracker w')))
  /\ (forall (env : Env) (event : Event) (t : Tracker),
        ~ In (key event) specialKeys ->
        handleKeyboardEvent env event t = Ok t).
Proof.
  split.
  - intros type fuel env event w w' H Hall.
    eapply (callListeners_preserves (fun t => Forall keySafe (events t)));
      [|exact H|exact Hall].
    intros h t t'. apply runHandler_keySafe.
  - intros env event t Hnot. unfold handleKeyboardEvent.
    destruct (includes _ (key event)) eqn:E; [|reflexivity].
    apply includes_In in E. contradiction.
Qed.

(** X4.  Hovering, focusing or leaving an element outside the listed
    tags stores nothing: when every hover record held so far is about an
    [a], [button], [input], [select] or [textarea] and every focus or blur
    record about an [input], [textarea] or [select], so is every one
    after any dispatch. *)
Theorem only_listed_targets_stored (type : string) (fuel : nat) (env : Env)
    (event : Event) (w w' : World) :
  dispatch type fuel env event w = Ok w' ->
  Forall targetSafe (events (tracker w)) ->
  Forall targetSafe (events (tracker w')).
Proof.
  intros H Hall.
  eapply (callListeners_preserves (fun t => Forall targetSafe (events t)));
    [|exact H|exact Hall].
  intros h t t'. apply runHandler_targetSafe.
Qed.

(* ================================================================= *)
(** ** Truncation *)

Lemma prefix_length (n : nat) (s : string) :
  String.length (Str.prefix n s) = Nat.min n (String.length s).
Proof.
  unfold Str.prefix. revert s; induction n as [|n IH]; intros [|c s]; cbn; auto.
Qed.

Lemma prefix_short (n : nat) (s : string) :
  String.length s <= n -> Str.prefix n s = s.
Proof.
  unfold Str.prefix. revert s; induction n as [|n IH]; intros [|c s]; cbn; auto.
  - lia.
  - intro H. f_equal. apply IH. lia.
Qed.

Lemma truncated_field (p : prop) :
  let text := orElse (substring_opt 50 p) "N/A" in
  String.length text <= 50
  /\ forall s, p = Some s -> s <> EmptyString ->
       text = Str.prefix 50 s
       /\ (String.length s <= 50 -> text = s)
       /\ (50 < String.length s -> String.length text = 50).
Proof.
  cbv zeta. split.
  - unfold orElse. destruct p as [s|]; cbn [substring_opt option_map truthy];
      [|cbn; lia].
    destruct (Str.nonempty (Str.prefix 50 s)); [|cbn; lia].
    cbn [interp]. rewrite prefix_length. lia.
  - intros s -> Hne. unfold orElse. cbn [substring_opt option_map truthy interp].
    assert (Hnon : Str.nonempty (Str.prefix 50 s) = true)
      by (destruct s; [congruence | reflexivity]).
    rewrite Hnon. split; [reflexivity|]. split.
    + intro H. now apply prefix_short.
    + intro H. rewrite prefix_length. lia.
Qed.

(** X5.  The text of a click record and the value of a change record are
    cut at 50 characters: the field never holds more than 50, it is the
    first 50 characters of a longer text, and a shorter non-empty text is
    stored whole. *)
Theorem stored_text_truncated :
  (forall (fuel : nat) (env : Env) (event : Event) (t t' : Tracker),
      handleClickEvent fuel env event t = Ok t' ->
      exists record text,
        events t' = (events t ++ [record])%list
        /\ getProp "text" (getProp "element" record) = JString text
        /\ String.length text <= 50
        /\ forall s,
             innerText (node (document env) (target event)) = Some s ->
             s <> EmptyString ->
             text = substring 0 50 s
             /\ (String.length s <= 50 -> text = s)
             /\ (50 < String.length s -> String.length text = 50))
  /\ (forall (env : Env) (event : Event) (t t' : Tracker),
        handleChangeEvent env event t = Ok t' ->
        exists record text,
          events t' = (events t ++ [record])%list
          /\ getProp "value" (getProp "element" record) = JString text
          /\ String.length text <= 50
          /\ forall s,
               value (node (document env) (target event)) = Some s ->
               s <> EmptyString ->
               text = substring 0 50 s
               /\ (String.length s <= 50 -> text = s)
               /\ (50 < String.length s -> String.length text = 50)).
Proof.
  split.
  - intros fuel env event t t' H. unfold handleClickEvent in H. open_handler H.
    do 2 eexists. split; [reflexivity|]. split; [reflexivity|].
    apply truncated_field.
  - intros env event t t' H. unfold handleChangeEvent in H. open_handler H.
    do 2 eexists. split; [reflexivity|]. split; [reflexivity|].
    apply truncated_field.
Qed.

(* ================================================================= *)
(** ** Nothing throws on a document *)

Lemma getCssSelector_returns (d : Document) (e : ref) (n fuel : nat) :
  elementsTagged d -> isElement (node d e) = true ->
  rooted d e n -> n <= fuel ->
  exists selector, getCssSelector fuel d e = Ok selector.
Proof.
  intros Htagged Helem Hroot Hle. unfold getCssSelector. cbv zeta.
  destruct (truthy (id (node d e))); [eauto|].
  destruct (tagName (node d e)) as [t|] eqn:Htag; [|now apply Htagged in Helem].
  destruct (truthy (className (node d e))) eqn:Hcls.
  - destruct (className (node d e)) as [cls|]; [|discriminate Hcls].
    cbn. eauto.
  - destruct (cssPathLoop_walk n d e fuel Htagged Helem Hroot Hle)
      as [segs [_ Hloop]].
    rewrite Hloop. cbn. eauto.
Qed.

Lemma getXPath_returns (n : nat) :
  forall (d : Document) (e : ref) (fuel : nat),
    documentLike d ->
    isElement (node d e) = true \/ parentNode (node d e) = None ->
    rooted d e n -> n <= fuel ->
    exists path, getXPath fuel d e = Ok path.
Proof.
  induction n as [|n IH]; intros d e fuel Hdoc Hkind Hroot Hle;
    rewrite getXPath_unfold; cbv zeta;
    (destruct (truthy (id (node d e))); [eauto|]);
    (destruct (isBody d e); [eauto|]).
  - rewrite (rooted_top _ _ Hroot). eauto.
  - destruct (parentNode (node d e)) as [p|] eqn:Hp; [|eauto].
    destruct (xpathScan _ _ _ _); [|eauto].
    destruct fuel as [|fuel]; [lia|].
    destruct Hkind as [Helem|Hnone]; [|discriminate Hnone].
    destruct (IH d p fuel Hdoc (proj2 Hdoc _ _ Hp)
                (rooted_parent _ _ _ _ Hroot Hp) ltac:(lia)) as [up ->].
    destruct (tagName (node d e)) as [t|] eqn:Htag;
      [|now apply (proj1 Hdoc) in Helem].
    cbn. eauto.
Qed.

(** X6.  On an element of a document, with at most [n] nodes above it
    and [n] units of fuel, neither locator throws: [getCssSelector]
    returns a string and [getXPath] returns a string or [undefined].
    The store holds [id] and [className] as strings or [undefined], as
    HTML elements have them. *)
Theorem locators_return (d : Document) (e : ref) (n fuel : nat) :
  documentLike d -> isElement (node d e) = true ->
  rooted d e n -> n <= fuel ->
  (exists selector, getCssSelector fuel d e = Ok selector)
  /\ (exists path, getXPath fuel d e = Ok path).
Proof.
  intros Hdoc Helem Hroot Hle. split.
  - exact (getCssSelector_returns d e n fuel (proj1 Hdoc) Helem Hroot Hle).
  - exact (getXPath_returns n d e fuel Hdoc (or_introl Helem) Hroot Hle).
Qed.

Lemma getEventObjectType_returns (n : Node) :
  tagName n <> None -> exists label, getEventObjectType n = Ok label.
Proof.
  intro Htag. unfold getEventObjectType.
  destruct (tagName n) as [t|]; [|congruence]. cbn [toLowerCase_of bind].
  destruct (option_map Str.toLowerCase (type_ n));
    repeat match goal with
           | |- context [if ?b then _ else _] => destruct b
           end; eauto.
Qed.

Lemma runHandler_returns (h : Handler) (fuel n : nat) (env : Env) (event : Event)
    (t : Tracker) :
  documentLike (document env) ->
  isElement (node (document env) (target event)) = true ->
  rooted (document env) (target event) n -> n <= fuel ->
  exists t', runHandler h fuel env event t = Ok t'.
Proof.
  intros Hdoc Helem Hroot Hle.
  pose proof (proj1 Hdoc _ Helem) as Htag.
  destruct (getEventObjectType_returns _ Htag) as [label Hlabel].
  destruct (getCssSelector_returns _ _ n fuel (proj1 Hdoc) Helem Hroot Hle)
    as [selector Hsel].
  destruct (getXPath_returns n _ _ fuel Hdoc (or_introl Helem) Hroot Hle)
    as [path Hpath].
  destruct (tagName (node (document env) (target event))) as [tg|] eqn:Htg;
    [|congruence].
  destruct h; cbn [runHandler];
    unfold handleClickEvent, handleHoverEvent, handleScrollEvent, handleFocusEvent,
      handleBlurEvent, handleChangeEvent, handleSubmitEvent, handleKeyboardEvent,
      handleMouseMoveEvent, handleResizeEvent;
    cbv zeta; rewrite ?Htg, ?Hlabel; cbn [toLowerCase_of bind];
    try match goal with
        | |- context [if ?b then _ else _] => destruct b
        end;
    rewrite ?Hlabel, ?Hsel, ?Hpath; cbn [bind]; eauto.
Qed.

Lemma callListener_returns (l : Listener) (fuel n : nat) (env : Env) (event : Event)
    (w : World) :
  documentLike (document env) ->
  isElement (node (document env) (target event)) = true ->
  rooted (document env) (target event) n -> n <= fuel ->
  match l with
  | Wrapped c => c < List.length (closures w)
  | Plain _ => True
  end ->
  exists w', callListener l fuel env event w = Ok w'.
Proof.
  intros Hdoc Helem Hroot Hle Hbound. destruct l as [h|c]; cbn [callListener].
  - destruct (runHandler_returns h fuel n env event (tracker w) Hdoc Helem Hroot Hle)
      as [t' ->]. cbn. eauto.
  - destruct (nth_error (closures w) c) as [cl|] eqn:Hc;
      [|apply nth_error_None in Hc; lia].
    destruct (delay cl <=? now env - lastCall cl)%Z; [|eauto].
    destruct (runHandler_returns (func cl) fuel n env event (tracker w)
                Hdoc Helem Hroot Hle) as [t' ->]. cbn. eauto.
Qed.

Lemma callListeners_return (fuel n : nat) (env : Env) (event : Event) (type : string) :
  documentLike (document env) ->
  isElement (node (document env) (target event)) = true ->
  rooted (document env) (target event) n -> n <= fuel ->
  forall (ls : list (string * Listener)) (w : World),
    Forall (fun entry =>
              match snd entry with
              | Wrapped c => c < List.length (closures w)
              | Plain _ => True
              end) ls ->
    exists w', callListeners ls type fuel env event w = Ok w'.
Proof.
  intros Hdoc Helem Hroot Hle ls.
  induction ls as [|[type' l] ls IH]; intros w Hall; cbn [callListeners]; [eauto|].
  inversion Hall as [|? ? Hl Hrest]; subst. cbn [snd] in Hl.
  destruct (String.eqb type' type); [|now apply IH].
  destruct (callListener_returns l fuel n env event w Hdoc Helem Hroot Hle Hl)
    as [w1 H1].
  rewrite H1. cbn [bind]. apply IH.
  destruct (callListener_effect _ _ _ _ _ _ H1) as [_ [Hlen _]].
  now rewrite Hlen.
Qed.

Lemma listenersBound_add (type : string) (l : Listener) (w : World) :
  listenersBound w ->
  match l with
  | Wrapped c => c < List.length (closures w)
  | Plain _ => True
  end ->
  listenersBound (addEventListener type l w).
Proof.
  intros Hw Hl. unfold listenersBound, addEventListener; cbn.
  apply Forall_app. split; [exact Hw|]. constructor; [exact Hl | constructor].
Qed.

Lemma listenersBound_throttle (type : string) (h : Handler) (d : Z) (w : World) :
  listenersBound w ->
  listenersBound (addEventListener type (fst (throttle h d w)) (snd (throttle h d w))).
Proof.
  intro Hw. apply listenersBound_add.
  - unfold listenersBound, throttle in *; cbn.
    eapply Forall_impl; [|exact Hw].
    intros [ty [h'|c]]; cbn; [auto|]. rewrite length_app; cbn. lia.
  - cbn. rewrite length_app; cbn. lia.
Qed.

Lemma registerEventListeners_bound (w : World) :
  listenersBound w -> listenersBound (registerEventListeners w).
Proof.
  intro Hw. unfold registerEventListeners.
  destruct (trackScrolling _), (trackFormInputs _), (trackMouseMovement _);
    repeat first [ apply listenersBound_throttle
                 | apply listenersBound_add; [|exact I] ];
    exact Hw.
Qed.

(** X7.  The tracker never breaks the page: after [initActivityTracker]
    every throttled listener of the table has its closure, and in such a
    world every dispatch of an event on an element of a document that has
    a body returns ([n] units of fuel for at most [n] nodes above the
    target) and leaves the table in that state.  Without a body
    [handleScrollEvent] could not read [document.body.scrollHeight].  The
    properties the handlers read are strings or [undefined], as the store
    holds them for HTML elements. *)
Theorem dispatch_never_throws :
  (forall (env : Env) (page : PageInfo) (random36 : string) (t : Tracker),
      listenersBound (initActivityTracker env page random36 (mkWorld t [] [])))
  /\ (forall (type : string) (fuel n : nat) (env : Env) (event : Event) (w : World),
        documentLike (document env) ->
        body (document env) <> None ->
        isElement (node (document env) (target event)) = true ->
        rooted (document env) (target event) n -> n <= fuel ->
        listenersBound w ->
        exists w', dispatch type fuel env event w = Ok w' /\ listenersBound w').
Proof.
  split.
  - intros env page random36 t. unfold initActivityTracker.
    apply registerEventListeners_bound. constructor.
  - intros type fuel n env event w Hdoc _ Helem Hroot Hle Hbound.
    destruct (callListeners_return fuel n env event type Hdoc Helem Hroot Hle
                (listeners w) w Hbound) as [w' H].
    exists w'. split; [exact H|].
    destruct (callListeners_effect _ _ _ _ _ _ _ H) as [Hl [Hc _]].
    unfold listenersBound. now rewrite Hl, Hc.
Qed.

(* ================================================================= *)
(** ** The throttle as a rate limit *)

Lemma callRepeatedly_spacing (c : nat) (fuel : nat) (a b : Z)
    (calls : list (Env * Event)) :
  Forall (fun call => (a <= now (fst call) <= b)%Z) calls ->
  forall (w : World) (cl : Throttled),
    nth_error (closures w) c = Some cl ->
    throttledHandler (func cl) ->
    exists w' k stamp,
      callRepeatedly (Wrapped c) fuel calls w = Ok w'
      /\ nth_error (closures w') c = Some (mkThrottled (func cl) (delay cl) stamp)
      /\ List.length (events (tracker w')) = List.length (events (tracker w)) + k
      /\ ((k = 0 /\ stamp = lastCall cl)
          \/ (0 < k /\ (stamp <= b)%Z
              /\ (lastCall cl + Z.of_nat k * delay cl <= stamp)%Z
              /\ (a + (Z.of_nat k - 1) * delay cl <= stamp)%Z)).
Proof.
  induction 1 as [|[env event] calls Hnow _ IH]; intros w cl Hc Hh.
  - exists w, 0, (lastCall cl). cbn [callRepeatedly].
    split; [reflexivity|]. split; [now destruct cl|]. split; [lia|]. now left.
  - cbn [callRepeatedly fst] in *.
    rewrite (callListener_wrapped _ _ _ _ _ _ Hc).
    destruct (Z.leb_spec (delay cl) (now env - lastCall cl)) as [Hacc|Hdrop].
    + destruct (throttledHandler_appends _ Hh fuel env event (tracker w))
        as [record ->]. cbn [bind].
      set (w1 := mkWorld (push record (tracker w))
                   (setLastCall c (now env) (closures w)) (listeners w)).
      assert (Hc1 : nth_error (closures w1) c
                    = Some (mkThrottled (func cl) (delay cl) (now env)))
        by (apply nth_error_setLastCall_same; exact Hc).
      destruct (IH w1 _ Hc1 Hh) as [w' [k [stamp [Hrun [Hc' [Hlen Hk]]]]]].
      cbn [func delay lastCall] in *.
      exists w', (S k), stamp. split; [exact Hrun|]. split; [exact Hc'|].
      split; [rewrite Hlen; unfold w1; cbn [tracker]; rewrite push_length; lia|].
      right. destruct Hk as [[-> ->]|[Hpos [Hb [Hstep Hfirst]]]].
      * repeat split; lia.
      * split; [lia|]. split; [exact Hb|]. split; nia.
    + cbn [bind].
      destruct (IH w cl Hc Hh) as [w' [k [stamp [Hrun [Hc' [Hlen Hk]]]]]].
      exists w', k, stamp. auto.
Qed.

(** X8.  The throttle is a rate limit over any run of calls: when one
    throttled listener with a positive delay [d] is called any number of
    times, in any order of clock readings all between [a] and [b], the
    records it appends number at most [1 + (b - a) / d]. *)
Theorem throttle_rate_limit (c : nat) (fuel : nat) (a b : Z)
    (calls : list (Env * Event)) (w : World) (cl : Throttled) :
  nth_error (closures w) c = Some cl ->
  throttledHandler (func cl) ->
  (0 < delay cl)%Z ->
  Forall (fun call => (a <= now (fst call) <= b)%Z) calls ->
  calls <> [] ->
  exists w' k,
    callRepeatedly (Wrapped c) fuel calls w = Ok w'
    /\ List.length (events (tracker w')) = List.length (events (tracker w)) + k
    /\ (Z.of_nat k <= 1 + (b - a) / delay cl)%Z.
Proof.
  intros Hc Hh Hd Hcalls Hne.
  destruct (callRepeatedly_spacing c fuel a b calls Hcalls w cl Hc Hh)
    as [w' [k [stamp [Hrun [_ [Hlen Hk]]]]]].
  exists w', k. split; [exact Hrun|]. split; [exact Hlen|].
  assert (Hab : (a <= b)%Z).
  { destruct calls as [|call calls]; [congruence|].
    inversion Hcalls; subst. lia. }
  destruct Hk as [[-> _]|[Hpos [Hb [_ Hfirst]]]].
  - pose proof (Z.div_pos (b - a) (delay cl) ltac:(lia) Hd). lia.
  - assert (Hq : (Z.of_nat k - 1 <= (b - a) / delay cl)%Z).
    { apply Z.div_le_lower_bound; [exact Hd|]. nia. }
    lia.
Qed.

(* ================================================================= *)
(** ** What the configuration switches off *)

Lemma callListeners_none (ls : list (string * Listener)) (type : string)
    (fuel : nat) (env : Env) (event : Event) (w : World) :
  existsb (fun entry => String.eqb (fst entry) type) ls = false ->
  callListeners ls type fuel env event w = Ok w.
Proof.
  induction ls as [|[type' l] ls IH]; cbn; [reflexivity|].
  destruct (String.eqb type' type); cbn; [discriminate | exact IH].
Qed.

Lemma callListeners_unlisted (ls : list (string * Listener)) (type : string)
    (fuel : nat) (env : Env) (event : Event) (w : World) :
  ~ In type (map fst ls) ->
  callListeners ls type fuel env event w = Ok w.
Proof.
  intro Hnot. apply callListeners_none.
  induction ls as [|[type' l] ls IH]; cbn [existsb fst]; [reflexivity|].
  destruct (String.eqb_spec type' type) as [->|_].
  - exfalso. apply Hnot. now left.
  - apply IH. intro H. apply Hnot. now right.
Qed.

(** X9.  What the configuration switches off at registration is never
    recorded afterwards: in any world whose listener table is the one
    [registerEventListeners] built, a [mousemove] changes nothing when
    mouse tracking was off, a [scroll] changes nothing when scroll
    tracking was off, and [focus], [blur], [change] and [submit] change
    nothing when form tracking was off, whatever the configuration says
    by then; an event type the script does not listen to changes nothing
    either. *)
Theorem switched_off_never_recorded (t : Tracker) (w : World) (fuel : nat)
    (env : Env) (event : Event) :
  listeners w = listeners (registerEventListeners (mkWorld t [] [])) ->
  (trackMouseMovement (config t) = false ->
   dispatch "mousemove" fuel env event w = Ok w)
  /\ (trackScrolling (config t) = false ->
      dispatch "scroll" fuel env event w = Ok w)
  /\ (trackFormInputs (config t) = false ->
      dispatch "focus" fuel env event w = Ok w
      /\ dispatch "blur" fuel env event w = Ok w
      /\ dispatch "change" fuel env event w = Ok w
      /\ dispatch "submit" fuel env event w = Ok w)
  /\ (forall type,
        ~ In type ["click"; "mouseover"; "scroll"; "focus"; "blur"; "change";
                   "submit"; "keydown"; "mousemove"; "resize"] ->
        dispatch type fuel env event w = Ok w).
Proof.
  intro Hl. unfold dispatch. rewrite Hl. clear Hl.
  destruct t as [evs sess [c1 c2 move scroll form c6]]; cbn [config
    trackMouseMovement trackScrolling trackFormInputs].
  split; [|split; [|split]].
  - intros ->. destruct scroll, form; apply callListeners_none; reflexivity.
  - intros ->. destruct move, form; apply callListeners_none; reflexivity.
  - intros ->. destruct move, scroll; repeat split;
      apply callListeners_none; reflexivity.
  - intros type Hnot. apply callListeners_unlisted.
    intro H. apply Hnot.
    destruct move, scroll, form; cbn in H |- *; tauto.
Qed.

(* ================================================================= *)
(** ** After registration *)

Lemma registered_click (t : Tracker) :
  exists rest,
    listeners (registerEventListeners (mkWorld t [] []))
    = ("click", Plain HandleClick) :: rest
    /\ ~ In "click" (map fst rest).
Proof.
  destruct t as [evs sess [c1 c2 move scroll form c6]].
  destruct move, scroll, form; eexists; (split; [reflexivity|]);
    cbn; intuition discriminate.
Qed.

Lemma handleClickEvent_pushes (fuel : nat) (env : Env) (event : Event)
    (t t' : Tracker) :
  handleClickEvent fuel env event t = Ok t' ->
  exists record selector,
    t' = push record t
    /\ getProp "type_of_event" record = JString "CLICK"
    /\ getCssSelector fuel (document env) (target event) = Ok selector
    /\ getProp "cssSelector" record = JString selector.
Proof.
  intro H. unfold handleClickEvent in H.
  apply bind_ok in H as [label [_ H]].
  apply bind_ok in H as [tag [_ H]].
  apply bind_ok in H as [selector [Hsel H]].
  apply bind_ok in H as [path [_ H]].
  injection H as <-. do 2 eexists. split; [reflexivity|].
  split; [reflexivity|]. split; [exact Hsel | reflexivity].
Qed.

(** X10.  Once the listeners are registered, a click on an HTML element
    of a document (its [id] and [className] are strings or [undefined], as
    the store holds them; the [className] object of an SVG element is not
    among them) is recorded exactly once: the dispatch returns, the world
    is as before but for one appended record of kind CLICK, and the record
    carries the selector [getCssSelector] gives for the target. *)
Theorem click_recorded_once (t0 : Tracker) (w : World) (fuel n : nat)
    (env : Env) (event : Event) :
  listeners w = listeners (registerEventListeners (mkWorld t0 [] [])) ->
  documentLike (document env) ->
  isElement (node (document env) (target event)) = true ->
  rooted (document env) (target event) n -> n <= fuel ->
  exists record selector,
    dispatch "click" fuel env event w
    = Ok (mkWorld (push record (tracker w)) (closures w) (listeners w))
    /\ getProp "type_of_event" record = JString "CLICK"
    /\ getCssSelector fuel (document env) (target event) = Ok selector
    /\ getProp "cssSelector" record = JString selector.
Proof.
  intros Hl Hdoc Helem Hroot Hle.
  destruct (registered_click t0) as [rest [Hreg Hnot]].
  assert (Hw : listeners w = ("click", Plain HandleClick) :: rest) by congruence.
  destruct (runHandler_returns HandleClick fuel n env event (tracker w)
              Hdoc Helem Hroot Hle) as [t' Ht'].
  cbn [runHandler] in Ht'.
  destruct (handleClickEvent_pushes _ _ _ _ _ Ht')
    as [record [selector [-> [Hkind [Hsel Hcss]]]]].
  exists record, selector.
  split; [|repeat split; assumption].
  unfold dispatch. rewrite Hw at 1. cbn [callListeners].
  rewrite String.eqb_refl. cbn [callListener runHandler].
  rewrite Ht'. cbn [bind].
  now rewrite callListeners_unlisted by exact Hnot.
Qed.


(* ================================================================= *)
(** ** The summaries *)

Lemma countOf_bump (k k' : string) (counts : list (string * nat)) :
  countOf k (bump k' counts)
  = countOf k counts + (if String.eqb k' k then 1 else 0).
Proof.
  induction counts as [|[key n] counts IH]; cbn [bump countOf].
  - destruct (String.eqb k' k); lia.
  - destruct (String.eqb_spec key k') as [->|Hne]; cbn [countOf].
    + destruct (String.eqb k' k); lia.
    + destruct (String.eqb_spec key k) as [->|Hne'].
      * destruct (String.eqb_spec k' k); [congruence | lia].
      * exact IH.
Qed.

Lemma totalOf_bump (k : string) (counts : list (string * nat)) :
  totalOf (bump k counts) = S (totalOf counts).
Proof.
  induction counts as [|[key n] counts IH]; cbn [bump totalOf fold_right snd];
    [reflexivity|].
  destruct (String.eqb key k); cbn [totalOf fold_right snd]; [lia|].
  fold (totalOf (bump k counts)). fold (totalOf counts). lia.
Qed.

Lemma countBy_filter (field : string) (records : list JSValue) :
  Forall (keyed field) records ->
  forall acc,
    exists counts,
      countBy field records acc = Some counts
      /\ (forall k,
            countOf k counts
            = countOf k acc
              + List.length
                  (filter (fun event =>
                             match getProp field event with
                             | JString s => String.eqb s k
                             | _ => false
                             end) records))
      /\ totalOf counts = totalOf acc + List.length records.
Proof.
  induction 1 as [|record records [s [Hs Hown]] _ IH]; intro acc.
  - exists acc. cbn. repeat split; intros; lia.
  - cbn [countBy filter]. rewrite Hs. cbn [ownKey]. rewrite Hown.
    destruct (IH (bump s acc)) as [counts [Hrun [Hcount Htotal]]].
    exists counts. split; [exact Hrun|]. split.
    + intro k. rewrite Hcount, countOf_bump.
      destruct (String.eqb s k); cbn [List.length]; lia.
    + rewrite Htotal, totalOf_bump. cbn [List.length]. lia.
Qed.

Lemma label_own (label : string) :
  In label Spec.labels -> includes inheritedNames label = false.
Proof.
  cbn. intro H.
  repeat (destruct H as [<-|H]; [reflexivity|]). destruct H.
Qed.

Lemma stamped_countable (env : Env) (h : Handler) (record : JSValue) :
  stamped env h record ->
  keyed "type_of_event" record /\ keyed "event_object" record.
Proof.
  intros [_ [Hkind [label [Hlabel Hin]]]]. split.
  - exists (kindOf h). split; [exact Hkind | destruct h; reflexivity].
  - exists label. split; [exact Hlabel | now apply label_own].
Qed.

Lemma runHandler_countable (h : Handler) (fuel : nat) (env : Env) (event : Event)
    (t t' : Tracker) :
  runHandler h fuel env event t = Ok t' -> countable t -> countable t'.
Proof.
  intros H Hall.
  destruct (runHandler_effect _ _ _ _ _ _ H) as [->|[record [-> Hst]]];
    [exact Hall|].
  apply Forall_push; [exact Hall|]. eapply stamped_countable; eauto.
Qed.

(** X12.  The two tables of the summaries agree with the query functions:
    while every record has a kind and a label of its own (which the page
    view and every dispatch keep true), the count of the table for a kind
    is the number of records [getEventsByType] returns for it, the count
    for a label is the number [getEventsByObjectType] returns, and either
    table adds up to the number of records. *)
Theorem summary_counts_agree :
  (forall t : Tracker,
      countable t ->
      exists byKind byLabel,
        eventCounts t = Some byKind
        /\ objectCounts t = Some byLabel
        /\ (forall k, countOf k byKind = List.length (getEventsByType k t))
        /\ (forall k, countOf k byLabel = List.length (getEventsByObjectType k t))
        /\ totalOf byKind = List.length (events t)
        /\ totalOf byLabel = List.length (events t))
  /\ (forall env page t, countable t -> countable (trackPageView env page t))
  /\ (forall type fuel env event w w',
        dispatch type fuel env event w = Ok w' ->
        countable (tracker w) -> countable (tracker w')).
Proof.
  split; [|split].
  - intros t Hall.
    destruct (countBy_filter "type_of_event" (events t)) with (acc := @nil (string * nat))
      as [byKind [Hk [Hkc Hkt]]];
      [eapply Forall_impl; [|exact Hall]; now intros r [H _]|].
    destruct (countBy_filter "event_object" (events t)) with (acc := @nil (string * nat))
      as [byLabel [Hl [Hlc Hlt]]];
      [eapply Forall_impl; [|exact Hall]; now intros r [_ H]|].
    exists byKind, byLabel. repeat split; assumption.
  - intros env page t Hall. unfold trackPageView. apply Forall_push; [exact Hall|].
    split; eexists; split; reflexivity.
  - intros type fuel env event w w' H Hall.
    eapply (callListeners_preserves countable); [|exact H|exact Hall].
    intros h t t'. apply runHandler_countable.
Qed.

(* ================================================================= *)
(** ** What the export keeps *)

Lemma revive_defined (v : JSValue) : v <> JUndefined -> JSON.revive v <> JUndefined.
Proof. destruct v as [| |b|[z|]|s|items|fields]; cbn; congruence. Qed.

Lemma lookup_revive (k : string) (fields : list (string * JSValue)) :
  lookup k (flat_map JSON.reviveMember fields) = readBack (lookup k fields).
Proof.
  induction fields as [|[k' v] fields IH]; [reflexivity|].
  cbn [flat_map lookup].
  assert (Hcases : v = JUndefined \/ v <> JUndefined)
    by (destruct v; auto; right; discriminate).
  destruct Hcases as [->|Hv].
  - cbn [JSON.reviveMember snd app]. rewrite IH.
    destruct (lookup k fields); try reflexivity.
    destruct (String.eqb k' k); reflexivity.
  - assert (Hm : JSON.reviveMember (k', v) = [(k', JSON.revive v)])
      by (unfold JSON.reviveMember; cbn [fst snd]; destruct v; congruence).
    rewrite Hm. cbn [app lookup]. rewrite IH.
    destruct (lookup k fields) as [| |b|n|s|items|fs] eqn:Hl.
    + cbn [readBack]. destruct (String.eqb k' k); [|reflexivity].
      destruct v; try reflexivity; congruence.
    + reflexivity.
    + reflexivity.
    + destruct n; reflexivity.
    + reflexivity.
    + reflexivity.
    + reflexivity.
Qed.

Lemma getProp_revive (k : string) (v : JSValue) :
  getProp k (JSON.revive v) = readBack (getProp k v).
Proof.
  destruct v as [| |b|[z|]|s|items|fields]; try reflexivity.
  apply lookup_revive.
Qed.

Lemma revive_plain (v : JSValue) : plain v = true -> JSON.revive v = v.
Proof.
  induction v as [| |b|n|s|items IH|fields IH] using JSValue_nested_ind;
    cbn [plain JSON.revive]; try discriminate; try reflexivity.
  - destruct n; [reflexivity | discriminate].
  - intro H. f_equal. induction IH as [|x items Hx _ IHitems]; [reflexivity|].
    cbn [forallb] in H. apply andb_prop in H as [H1 H2].
    cbn [map]. now rewrite (Hx H1), (IHitems H2).
  - intro H. f_equal. induction IH as [|[k x] fields Hx _ IHfields]; [reflexivity|].
    cbn [forallb snd] in H. apply andb_prop in H as [H1 H2].
    cbn [flat_map snd fst] in *. rewrite (IHfields H2).
    destruct x; try discriminate H1; cbn [app]; rewrite ?(Hx H1); reflexivity.
Qed.

(** X13.  The export keeps the records up to what JSON cannot write:
    parsed back, the document has the records in their order; a property
    whose value holds no [undefined] and no number that is not finite, at
    any depth, reads exactly as it did in memory (every string does); any
    other property reads as its revived value, in which a number that is
    not finite (the scroll percentage of a page that cannot scroll) and an
    [undefined] item have become [null] and an [undefined] property is
    gone; a property that is [undefined] itself (a path [getXPath] could
    not give) is absent, as it was. *)
Theorem export_keeps_records (env : Env) (t : Tracker) :
  exists text doc records,
    exportEventsAsJSON env t = Some text
    /\ JSON.parse text = Some doc
    /\ getProp "events" doc = JArray records
    /\ getProp "exportTime" doc = JString (isoTime env)
    /\ List.length records = List.length (events t)
    /\ forall i record,
         nth_error (events t) i = Some record ->
         exists record',
           nth_error records i = Some record'
           /\ (forall k, getProp k record' = readBack (getProp k record))
           /\ (forall k, plain (getProp k record) = true ->
                         getProp k record' = getProp k record)
           /\ (forall k s, getProp k record = JString s ->
                           getProp k record' = JString s).
Proof.
  destruct (exportEventsAsJSON env t) as [text|] eqn:Hexport;
    [|discriminate Hexport].
  exists text, (JSON.revive (exportData env t)), (map JSON.revive (events t)).
  split; [reflexivity|].
  split; [now apply JSONFacts.parse_stringify|].
  split; [reflexivity|]. split; [reflexivity|]. split; [apply length_map|].
  intros i record Hi. exists (JSON.revive record).
  split; [now apply map_nth_error|].
  split; [intro k; apply getProp_revive|].
  split.
  - intros k Hplain. rewrite getProp_revive. unfold readBack.
    rewrite (revive_plain _ Hplain). now destruct (getProp k record).
  - intros k s Hs. now rewrite getProp_revive, Hs.
Qed.

(* ================================================================= *)
(** ** Session identifiers *)

Lemma spanDigits_stop (d : Decimal.uint) (c : ascii) (rest : string) :
  JSON.digit c = None ->
  JSON.spanDigits (NilEmpty.string_of_uint d ++ String c rest) = (d, String c rest).
Proof.
  intro Hc. induction d; cbn; try (rewrite IHd; reflexivity).
  now rewrite Hc.
Qed.

Lemma readInt_numberToString (z : Z) (c : ascii) (rest : string) :
  JSON.digit c = None ->
  exists (negative : bool) (d : Decimal.uint),
    Z.to_int z = (if negative then Decimal.Neg d else Decimal.Pos d)
    /\ readInt (JSON.numberToString z ++ String c rest)
       = (negative, (d, String c rest)).
Proof.
  intro Hc. unfold JSON.numberToString, readInt.
  destruct z as [|p|p]; cbn [Z.to_int].
  - exists false, Decimal.zero. split; [reflexivity|]. cbn. now rewrite Hc.
  - exists false, (Pos.to_uint p). split; [reflexivity|].
    cbn [NilEmpty.string_of_int].
    rewrite JSONFacts.splitSign_digits
      by apply DecimalPos.Unsigned.to_uint_nonnil.
    now rewrite spanDigits_stop.
  - exists true, (Pos.to_uint p). split; [reflexivity|].
    cbn [NilEmpty.string_of_int append JSON.splitSign].
    change (Ascii.eqb "-" "-") with true. cbv iota.
    now rewrite spanDigits_stop.
Qed.

Lemma substring_length_le (n m : nat) (s : string) :
  String.length (substring n m s) <= m.
Proof.
  revert n s; induction m as [|m IH]; intros n s.
  - revert s; induction n as [|n IHn]; intros [|c s]; cbn; auto.
  - revert s; induction n as [|n IHn]; intros [|c s]; cbn; auto; try lia.
    specialize (IH 0 s). lia.
Qed.

(** X14.  A session identifier tells the clock reading and the random
    suffix it was made from: two identifiers are equal only when they
    were generated at the same millisecond with the same suffix.  The
    suffix has at most 9 characters and may be empty. *)
Theorem session_id_determines_its_parts (env1 env2 : Env) (random1 random2 : string) :
  (generateSessionId env1 random1 = generateSessionId env2 random2 ->
   now env1 = now env2 /\ substring 2 9 random1 = substring 2 9 random2)
  /\ String.length (generateSessionId env1 random1)
     <= String.length ("session_" ++ JSON.numberToString (now env1) ++ "_") + 9.
Proof.
  split.
  - unfold generateSessionId. intro H.
    injection H as H. cbn [append] in H.
    destruct (readInt_numberToString (now env1) "_" (substring 2 9 random1) eq_refl)
      as [n1 [d1 [Hint1 Hread1]]].
    destruct (readInt_numberToString (now env2) "_" (substring 2 9 random2) eq_refl)
      as [n2 [d2 [Hint2 Hread2]]].
    rewrite H in Hread1. rewrite Hread1 in Hread2.
    injection Hread2 as Hn Hd Hrest. subst n2 d2.
    split; [|exact Hrest].
    apply DecimalZ.to_int_inj. congruence.
  - unfold generateSessionId.
    rewrite !JSONFacts.length_append.
    pose proof (substring_length_le 2 9 random1). cbn [String.length]. lia.
Qed.

(* ================================================================= *)
(** ** Absolute and drifting paths *)

Lemma getXPath_anchored (d : Document) (e : ref) :
  anchored d e ->
  forall n fuel, rooted d e n -> n <= fuel ->
    exists rest, getXPath fuel d e = Ok (Some (String "/" rest)).
Proof.
  induction 1 as [e Hid|e Hbody|e p t Hp Hin Htag _ IH]; intros n fuel Hroot Hle;
    rewrite getXPath_unfold; cbv zeta.
  - rewrite Hid. eexists; reflexivity.
  - destruct (truthy (id (node d e))); [eexists; reflexivity|].
    rewrite Hbody. eexists; reflexivity.
  - destruct (truthy (id (node d e))); [eexists; reflexivity|].
    destruct (isBody d e); [eexists; reflexivity|].
    rewrite Hp, (xpathScan_found _ _ _ _ Hin), Htag.
    destruct n as [|n]; [rewrite (rooted_top _ _ Hroot) in Hp; discriminate|].
    destruct fuel as [|fuel]; [lia|].
    destruct (IH n fuel (rooted_parent _ _ _ _ Hroot Hp) ltac:(lia)) as [rest ->].
    cbn. eexists; reflexivity.
Qed.

Lemma getXPath_drifting (d : Document) (e : ref) :
  drifting d e ->
  forall n fuel, rooted d e n -> n <= fuel ->
    exists rest, getXPath fuel d e = Ok (Some ("undefined/" ++ rest)).
Proof.
  induction 1 as [e p t Hid Hbody Hp Hin Htag Hpid Hpbody Hpp
                 |e p t Hid Hbody Hp Hin Htag _ IH];
    intros n fuel Hroot Hle;
    rewrite getXPath_unfold; cbv zeta;
    rewrite Hid, Hbody, Hp, (xpathScan_found _ _ _ _ Hin), Htag;
    (destruct n as [|n]; [rewrite (rooted_top _ _ Hroot) in Hp; discriminate|]);
    (destruct fuel as [|fuel]; [lia|]).
  - rewrite (getXPath_unfold fuel d p). cbv zeta.
    rewrite Hpid, Hpbody, Hpp. cbn.
    eexists; reflexivity.
  - destruct (IH n fuel (rooted_parent _ _ _ _ Hroot Hp) ltac:(lia)) as [rest ->].
    cbn. eexists; reflexivity.
Qed.

(** X15.  Where a path starts: an element whose ancestors lead to the
    body or to a node with an id gets a path that begins with a slash; an
    element whose ancestors end at a parentless node that is neither (the
    [html] element under the document, a node of a detached subtree) gets
    a path that begins with the word [undefined]. *)
Theorem getXPath_start (d : Document) (e : ref) (n fuel : nat) :
  rooted d e n -> n <= fuel ->
  (anchored d e ->
   exists rest, getXPath fuel d e = Ok (Some (String "/" rest)))
  /\ (drifting d e ->
      exists rest, getXPath fuel d e = Ok (Some ("undefined/" ++ rest))).
Proof.
  intros Hroot Hle. split; intro H.
  - exact (getXPath_anchored d e H n fuel Hroot Hle).
  - exact (getXPath_drifting d e H n fuel Hroot Hle).
Qed.

(* ================================================================= *)
(** ** Exporting what was read back *)

Lemma serialize_array_items (indent : string) (items : list JSValue) :
  JSON.serializeJSONProperty indent (JArray items)
  = Some (match map (JSON.itemText (indent ++ JSON.gap)) items with
          | [] => "[]"
          | _ :: _ =>
              "[" ++ JSON.nl ++ (indent ++ JSON.gap)
                  ++ Str.join ("," ++ JSON.nl ++ indent ++ JSON.gap)
                       (map (JSON.itemText (indent ++ JSON.gap)) items)
                  ++ JSON.nl ++ indent ++ "]"
          end).
Proof. reflexivity. Qed.

Lemma serialize_object_members (indent : string) (fields : list (string * JSValue)) :
  JSON.serializeJSONProperty indent (JObject fields)
  = Some (match flat_map (JSON.memberText (indent ++ JSON.gap)) fields with
          | [] => "{}"
          | _ :: _ =>
              "{" ++ JSON.nl ++ (indent ++ JSON.gap)
                  ++ Str.join ("," ++ JSON.nl ++ indent ++ JSON.gap)
                       (flat_map (JSON.memberText (indent ++ JSON.gap)) fields)
                  ++ JSON.nl ++ indent ++ "}"
          end).
Proof. reflexivity. Qed.

Lemma revive_array (items : list JSValue) :
  JSON.revive (JArray items) = JArray (map JSON.revive items).
Proof. reflexivity. Qed.

Lemma undefined_or_not (v : JSValue) : v = JUndefined \/ v <> JUndefined.
Proof. destruct v; auto; right; discriminate. Qed.

Lemma serialize_revive (v : JSValue) :
  forall indent,
    v <> JUndefined ->
    JSON.serializeJSONProperty indent (JSON.revive v)
    = JSON.serializeJSONProperty indent v.
Proof.
  induction v as [| |b|n|s|items IH|fields IH] using JSValue_nested_ind;
    intros indent Hv; try reflexivity.
  - congruence.
  - destruct n; reflexivity.
  - rewrite revive_array, !serialize_array_items, map_map.
    replace (map (fun x => JSON.itemText (indent ++ JSON.gap) (JSON.revive x)) items)
      with (map (JSON.itemText (indent ++ JSON.gap)) items); [reflexivity|].
    clear Hv. induction IH as [|x xs Hx _ IHxs]; cbn [map]; [reflexivity|].
    rewrite IHxs. f_equal. unfold JSON.itemText.
    destruct (undefined_or_not x) as [->|Hdef]; [reflexivity|].
    now rewrite Hx.
  - rewrite JSONFacts.revive_object, !serialize_object_members.
    replace (flat_map (JSON.memberText (indent ++ JSON.gap))
               (flat_map JSON.reviveMember fields))
      with (flat_map (JSON.memberText (indent ++ JSON.gap)) fields); [reflexivity|].
    clear Hv. induction IH as [|[k v] fs Hv _ IHfs]; [reflexivity|].
    cbn [flat_map]. rewrite flat_map_app, <- IHfs. f_equal.
    cbn [snd] in Hv.
    destruct (undefined_or_not v) as [->|Hdef]; [reflexivity|].
    assert (Hm : JSON.reviveMember (k, v) = [(k, JSON.revive v)])
      by (unfold JSON.reviveMember; cbn [fst snd]; destruct v; congruence).
    rewrite Hm. cbn [flat_map]. rewrite app_nil_r.
    unfold JSON.memberText. cbn [fst snd]. now rewrite Hv.
Qed.

(** X16.  The export is stable: the document read back from the exported
    text, serialised again, gives the same text, and read back once more
    the same document. *)
Theorem export_is_stable (env : Env) (t : Tracker) :
  exists text doc,
    exportEventsAsJSON env t = Some text
    /\ JSON.parse text = Some doc
    /\ JSON.stringify doc = Some text
    /\ JSON.revive doc = doc.
Proof.
  destruct (exportEventsAsJSON env t) as [text|] eqn:Hexport;
    [|discriminate Hexport].
  exists text, (JSON.revive (exportData env t)).
  split; [reflexivity|].
  pose proof (JSONFacts.parse_stringify _ _ Hexport) as Hparse.
  split; [exact Hparse|].
  assert (Hagain : JSON.stringify (JSON.revive (exportData env t)) = Some text).
  { unfold JSON.stringify. rewrite serialize_revive; [exact Hexport | discriminate]. }
  split; [exact Hagain|].
  pose proof (JSONFacts.parse_stringify _ _ Hagain) as Hparse2.
  congruence.
Qed.

(* ================================================================= *)
(** ** Queries after a handler *)

Lemma getEventsBy_push (field wanted : string) (record : JSValue) (t : Tracker) :
  getEventsBy field wanted (push record t)
  = (getEventsBy field wanted t
     ++ match getProp field record with
        | JString s => if String.eqb s wanted then [record] else []
        | _ => []
        end)%list.
Proof.
  unfold getEventsBy, push; cbn [events]. rewrite filter_app. f_equal.
  cbn [filter]. destruct (getProp field record); reflexivity.
Qed.

(** X17.  A handler feeds the query for its own kind only: after a handler
    has returned, [getEventsByType] gives for every other kind what it
    gave before, and for the kind of the handler what it gave before,
    followed by the new record when one was appended. *)
Theorem handler_feeds_its_kind (h : Handler) (fuel : nat) (env : Env)
    (event : Event) (t t' : Tracker) :
  runHandler h fuel env event t = Ok t' ->
  (forall kind, kind <> kindOf h ->
                getEventsByType kind t' = getEventsByType kind t)
  /\ (events t' = events t
      /\ getEventsByType (kindOf h) t' = getEventsByType (kindOf h) t
      \/ exists record,
           events t' = (events t ++ [record])%list
           /\ getEventsByType (kindOf h) t'
              = (getEventsByType (kindOf h) t ++ [record])%list).
Proof.
  intro H.
  destruct (runHandler_effect _ _ _ _ _ _ H) as [->|[record [-> [_ [Hkind _]]]]].
  - split; [reflexivity | left; split; reflexivity].
  - unfold getEventsByType. split.
    + intros kind Hne. rewrite getEventsBy_push, Hkind.
      destruct (String.eqb_spec (kindOf h) kind); [congruence|].
      apply app_nil_r.
    + right. exists record. split; [reflexivity|].
      now rewrite getEventsBy_push, Hkind, String.eqb_refl.
Qed.

(* ================================================================= *)
(** ** The empty selector *)





(* ================================================================= *)
(** ** The properties on the page with controls *)

Lemma demo_documentLike : documentLike Demo.formDoc.
Proof.
  split.
  - intros r. unfold isElement. cbn [node Demo.formDoc].
    do 6 (destruct r as [|r]; [cbn; intro; discriminate|]).
    cbn. intro; discriminate.
  - intros r p. cbn [node Demo.formDoc].
    do 6 (destruct r as [|r];
          [cbn; intro H; try discriminate H; injection H as <-; cbn; auto|]).
    cbn. intro H; discriminate H.
Qed.


Lemma dispatch_appends_only_witness :
  listeners Demo.clicked = listeners Demo.registered
  /\ List.length (closures Demo.clicked) = List.length (closures Demo.registered)
  /\ session (tracker Demo.clicked) = session (tracker Demo.registered)
  /\ config (tracker Demo.clicked) = config (tracker Demo.registered)
  /\ exists new,
       events (tracker Demo.clicked)
       = (events (tracker Demo.registered) ++ new)%list
       /\ List.length new <= List.length (listeners Demo.registered)
       /\ Forall (fun record =>
                    exists h, stamped (Demo.formEnv 1762142401000) h record) new.
Proof.
  exact (dispatch_appends_only "click" 3 (Demo.formEnv 1762142401000) (Page.eventOn 3)
           Demo.registered Demo.clicked eq_refl).
Defined.

Lemma only_special_keys_stored_witness :
  Forall keySafe (events (tracker Demo.entered))
  /\ handleKeyboardEvent (Demo.formEnv 1762142401000) (Demo.keyEvent "a") Page.tracker0
     = Ok Page.tracker0.
Proof.
  split.
  - apply (proj1 only_special_keys_stored "keydown" 3 (Demo.formEnv 1762142401000)
             (Demo.keyEvent "Enter") Demo.registered Demo.entered eq_refl).
    constructor.
  - apply (proj2 only_special_keys_stored).
    cbn. intuition discriminate.
Defined.

Lemma only_listed_targets_stored_witness :
  Forall targetSafe (events (tracker Demo.hovered)).
Proof.
  apply (only_listed_targets_stored "mouseover" 3 (Demo.formEnv 1762142401000)
           (Page.eventOn 3) Demo.registered Demo.hovered eq_refl).
  constructor.
Defined.

Lemma stored_text_truncated_witness :
  (exists record text,
      events Demo.buttonClicked = [record]
      /\ getProp "text" (getProp "element" record) = JString text
      /\ String.length text = 50)
  /\ (exists record text,
        events Demo.inputChanged = [record]
        /\ getProp "value" (getProp "element" record) = JString text
        /\ String.length text = 50).
Proof.
  split.
  - destruct (proj1 stored_text_truncated 3 (Demo.formEnv 1762142401000)
                (Page.eventOn 3) Page.tracker0 Demo.buttonClicked eq_refl)
      as [record [text [Hevents [Htext [_ Hcut]]]]].
    exists record, text. split; [exact Hevents|]. split; [exact Htext|].
    apply (Hcut Demo.longText eq_refl); [discriminate | cbn; lia].
  - destruct (proj2 stored_text_truncated (Demo.formEnv 1762142401000)
                (Page.eventOn 4) Page.tracker0 Demo.inputChanged eq_refl)
      as [record [text [Hevents [Htext [_ Hcut]]]]].
    exists record, text. split; [exact Hevents|]. split; [exact Htext|].
    apply (Hcut Demo.longValue eq_refl); [discriminate | cbn; lia].
Defined.

Lemma locators_return_witness :
  (exists selector, getCssSelector 3 Demo.formDoc 3 = Ok selector)
  /\ (exists path, getXPath 3 Demo.formDoc 3 = Ok path).
Proof.
  exact (locators_return Demo.formDoc 3 3 3 demo_documentLike eq_refl eq_refl (le_n 3)).
Defined.

Lemma dispatch_never_throws_witness :
  exists w',
    dispatch "scroll" 3 (Demo.formEnv 1762142401000) (Page.eventOn 3) Demo.started = Ok w'
    /\ listenersBound w'.
Proof.
  apply (proj2 dispatch_never_throws "scroll" 3 3 (Demo.formEnv 1762142401000)
           (Page.eventOn 3) Demo.started demo_documentLike ltac:(discriminate)
           eq_refl eq_refl (le_n 3)).
  apply (proj1 dispatch_never_throws).
Defined.

Lemma throttle_rate_limit_witness :
  exists w' k,
    callRepeatedly (Wrapped 0) 0 Demo.scrolls
      (snd (throttle HandleScroll 500 (mkWorld Page.tracker0 [] []))) = Ok w'
    /\ List.length (events (tracker w')) = 0 + k
    /\ (Z.of_nat k <= 1 + (1762142401700 - 1762142401000) / 500)%Z.
Proof.
  apply (throttle_rate_limit 0 0 1762142401000 1762142401700 Demo.scrolls
           (snd (throttle HandleScroll 500 (mkWorld Page.tracker0 [] [])))
           (mkThrottled HandleScroll 500 0) eq_refl (or_introl eq_refl)).
  - cbn. lia.
  - repeat constructor; cbn; lia.
  - discriminate.
Defined.

Lemma switched_off_never_recorded_witness :
  dispatch "mousemove" 3 (Demo.formEnv 1762142401000) (Page.eventOn 3) Demo.registered
  = Ok Demo.registered.
Proof.
  apply (proj1 (switched_off_never_recorded Page.tracker0 Demo.registered 3
                  (Demo.formEnv 1762142401000) (Page.eventOn 3) eq_refl)).
  reflexivity.
Defined.

Lemma click_recorded_once_witness :
  exists record selector,
    dispatch "click" 3 (Demo.formEnv 1762142401000) (Page.eventOn 3) Demo.registered
    = Ok (mkWorld (push record (tracker Demo.registered)) (closures Demo.registered)
            (listeners Demo.registered))
    /\ getProp "type_of_event" record = JString "CLICK"
    /\ getCssSelector 3 (document (Demo.formEnv 1762142401000))
         (target (Page.eventOn 3)) = Ok selector
    /\ getProp "cssSelector" record = JString selector.
Proof.
  exact (click_recorded_once Page.tracker0 Demo.registered 3 3
           (Demo.formEnv 1762142401000) (Page.eventOn 3) eq_refl demo_documentLike
           eq_refl eq_refl (le_n 3)).
Defined.


Lemma buttonClicked_countable : countable Demo.buttonClicked.
Proof.
  constructor; [|constructor].
  split; eexists; split; reflexivity.
Qed.

Lemma summary_counts_agree_witness :
  exists byKind byLabel,
    eventCounts Demo.buttonClicked = Some byKind
    /\ objectCounts Demo.buttonClicked = Some byLabel
    /\ (forall k, countOf k byKind = List.length (getEventsByType k Demo.buttonClicked))
    /\ (forall k, countOf k byLabel
                  = List.length (getEventsByObjectType k Demo.buttonClicked))
    /\ totalOf byKind = List.length (events Demo.buttonClicked)
    /\ totalOf byLabel = List.length (events Demo.buttonClicked).
Proof.
  exact (proj1 summary_counts_agree Demo.buttonClicked buttonClicked_countable).
Defined.

Lemma session_id_determines_its_parts_witness :
  now (Demo.formEnv 1762142400000) = now (Demo.formEnv 1762142400000)
  /\ substring 2 9 "0.k3j9x2a1b" = substring 2 9 "0.k3j9x2a1bq7".
Proof.
  apply (proj1 (session_id_determines_its_parts (Demo.formEnv 1762142400000)
                  (Demo.formEnv 1762142400000) "0.k3j9x2a1b" "0.k3j9x2a1bq7")).
  reflexivity.
Defined.

Lemma page_li_anchored : anchored Page.doc 6.
Proof.
  apply (anchored_child Page.doc 6 3 "LI"); [reflexivity | pick_label | reflexivity |].
  apply (anchored_child Page.doc 3 2 "UL"); [reflexivity | pick_label | reflexivity |].
  apply anchored_body. reflexivity.
Qed.

Lemma page_html_drifting : drifting Page.doc 1.
Proof.
  apply (drifting_top Page.doc 1 0 "HTML"); try reflexivity. cbn; auto.
Qed.

Lemma getXPath_start_witness :
  (exists rest, getXPath 4 Page.doc 6 = Ok (Some (String "/" rest)))
  /\ (exists rest, getXPath 1 Page.doc 1 = Ok (Some ("undefined/" ++ rest))).
Proof.
  split.
  - exact (proj1 (getXPath_start Page.doc 6 4 4 eq_refl (le_n 4)) page_li_anchored).
  - exact (proj2 (getXPath_start Page.doc 1 1 1 eq_refl (le_n 1)) page_html_drifting).
Defined.

Lemma handler_feeds_its_kind_witness :
  getEventsByType "HOVER" Demo.buttonClicked = getEventsByType "HOVER" Page.tracker0
  /\ exists record,
       events Demo.buttonClicked = [record]
       /\ getEventsByType "CLICK" Demo.buttonClicked = [record].
Proof.
  destruct (handler_feeds_its_kind HandleClick 3 (Demo.formEnv 1762142401000)
              (Page.eventOn 3) Page.tracker0 Demo.buttonClicked eq_refl)
    as [Hother [[Hsame _]|[record [Hevents Hown]]]].
  - discriminate Hsame.
  - split; [apply Hother; discriminate|].
    exists record. split; [exact Hevents | exact Hown].
Defined.

